(** * llama-mcp-server: the HTTP client and the process lifecycle tools

    A shallow embedding of [src/client.ts] and [src/tools/process.ts].
    The first part holds the definitions, written after the TypeScript
    source function by function; the second part holds the theorems.

    - An [async] function is a function from what the outside answers to
      the effects it performs and the way it settles.  The client's
      effects are the timer and the [fetch] calls; the process tools act
      on a world that holds the shared [state] object, the registered exit
      listeners, the events so far and the answers to come.
    - What the source takes from its platform is a parameter of the
      model: [JSON.stringify], the server behind [fetch], zod's [parse],
      and the outcomes of [spawn], [kill] and [client.health].
    - JS numbers are binary64 floats, and the text [String(x)] makes of
      one is the host's.  Process ids and HTTP status codes are integers,
      kept as [Z] and printed in decimal. *)

From Stdlib Require Import ZArith String Ascii List Bool Lia.
From Stdlib Require Import DecimalString PrimFloat Uint63 FloatOps SpecFloat.
Import ListNotations.

Local Open Scope string_scope.
Local Open Scope Z_scope.

Set Implicit Arguments.
Set Warnings "-register-all,-inexact-float".

(** ** JavaScript values, exceptions and completions *)

Module Js.

(** A JS [number] is an IEEE 754 binary64, that is Rocq's primitive
    [float].  Process ids and HTTP status codes are integers and are kept
    as [Z]; [number_of_Z] places a process id, which the system keeps far
    below 2^53, into a JS value. *)
Definition number : Set := float.

Definition number_of_Z (z : Z) : number :=
  if z <? 0
  then PrimFloat.opp (PrimFloat.of_uint63 (Uint63.of_Z (- z)))
  else PrimFloat.of_uint63 (Uint63.of_Z z).

(** [String(n)] and [`${n}`] for a process id or a status code [n]: its
    decimal numeral. *)
Definition String_of_Z (z : Z) : string :=
  NilZero.string_of_int (Z.to_int z).

Inductive JsValue : Type :=
| JUndefined
| JNull
| JBool (b : bool)
| JNumber (x : number)
| JString (s : string)
| JArray (items : list JsValue)
| JObject (fields : list (string * JsValue)).

(** What a [throw] carries: an instance of [Error] (its [name] and
    [message]), or any other value, kept as the text [String(value)] gives. *)
Inductive Exception : Type :=
| ErrorObject (name message : string)
| NonError (as_string : string).

(** [new Error(message)] *)
Definition Error (message : string) : Exception := ErrorObject "Error" message.

(** [error instanceof Error ? error.message : String(error)] *)
Definition message_of (e : Exception) : string :=
  match e with
  | ErrorObject _ message => message
  | NonError s => s
  end.

(** How an evaluation ends: with a value, or with a thrown exception (a
    rejected promise, for an [async] function). *)
Inductive Completion (A : Type) : Type :=
| Normal (a : A)
| Throw (e : Exception).
Arguments Normal {A} a.
Arguments Throw {A} e.

(** [x ?? d]: the default is taken only when [x] is [undefined] or [null]. *)
Definition nullish {A : Type} (x : option A) (d : A) : A :=
  match x with
  | Some v => v
  | None => d
  end.

(** [o?.f] for an optional record [o] and an optional field [f]. *)
Definition opt_chain {R A : Type} (o : option R) (f : R -> option A) : option A :=
  match o with
  | Some r => f r
  | None => None
  end.

(** An optional field as a JS value: [undefined] when absent. *)
Definition js_optional {A : Type} (inj : A -> JsValue) (x : option A) : JsValue :=
  match x with
  | Some v => inj v
  | None => JUndefined
  end.

Definition js_strings (l : list string) : JsValue := JArray (map JString l).
Definition js_numbers (l : list number) : JsValue := JArray (map JNumber l).

(** [s] occurs in [msg]. *)
Definition contains (msg s : string) : Prop :=
  exists before after, msg = before ++ s ++ after.

(** The property [o[key]] of an object literal; the first binding wins in
    this model, and the objects built below never repeat a key. *)
Fixpoint field (key : string) (fields : list (string * JsValue)) : option JsValue :=
  match fields with
  | [] => None
  | (k, v) :: rest => if String.eqb k key then Some v else field key rest
  end.

End Js.
Import Js.

Notation "x ?? d" := (nullish x d) (at level 45, left associativity).
Notation "o ?. f" := (opt_chain o f) (at level 44, left associativity).

(** ** Configuration ([src/config.ts]) *)

Module Config.

Record Config : Type := {
  serverUrl : string;
  timeout : Z;
  modelPath : option string;
  serverPath : string
}.

End Config.

(** ** The HTTP client ([src/client.ts]) *)

Module Client.

(** The second argument of [fetch].  [signal] records whether an abort
    signal is attached. *)
Record RequestInit : Type := {
  method : option string;
  body : option string;
  signal : bool;
  headers : option (list (string * string))
}.

(** The [Response] of the Fetch API, as far as the client looks at it.
    [json] and [text] are what the methods of the same name settle with:
    [json()] rejects with a [SyntaxError] when the body is not JSON text. *)
Record Response : Type := {
  status : Z;
  statusText : string;
  json : Completion JsValue;
  text : Completion string
}.

(** [response.ok]: the status is in the range 200-299. *)
Definition ok (r : Response) : bool :=
  (200 <=? status r) && (status r <=? 299).

Inductive FetchOutcome : Type :=
| Resolves (r : Response)
| Rejects (e : Exception).

(** What the client's code does to the outside, in order. *)
Inductive Effect : Type :=
| SetTimeout (ms : Z)
| Fetch (url : string) (init : RequestInit)
| ClearTimeout.

(** The host the client runs on: the built-in [JSON.stringify] and the
    server behind the global [fetch]. *)
Class Host : Type := {
  JSON_stringify : JsValue -> string;
  fetch_outcome : string -> RequestInit -> FetchOutcome
}.

(** An asynchronous computation: the effects it performed and how it
    settled. *)
Definition IO (A : Type) : Type := (list Effect * Completion A)%type.

Definition ret {A : Type} (a : A) : IO A := ([], Normal a).

Definition throw {A : Type} (e : Exception) : IO A := ([], Throw e).

Definition bind {A B : Type} (m : IO A) (k : A -> IO B) : IO B :=
  match m with
  | (t, Normal a) => let (t', r) := k a in ((t ++ t')%list, r)
  | (t, Throw e) => (t, Throw e)
  end.

Definition emit (e : Effect) : IO unit := ([e], Normal tt).

Definition settle {A : Type} (c : Completion A) : IO A := ([], c).

(** [try { m } finally { f }]: [f] runs however [m] ends, and [m]'s
    completion stands unless [f] throws. *)
Definition finally {A : Type} (m : IO A) (f : IO unit) : IO A :=
  let (t, r) := m in
  match f with
  | (t', Normal _) => ((t ++ t')%list, r)
  | (t', Throw e) => ((t ++ t')%list, Throw e)
  end.

Notation "x <- m ;; k" := (bind m (fun x => k))
  (at level 61, m at next level, right associativity).
Notation "m ;; k" := (bind m (fun _ => k))
  (at level 61, right associativity).

(** [{...base, ...extra}] on header objects: a key of [extra] replaces the
    same key of [base], a new key is added at the end. *)
Fixpoint set_header (k v : string) (hs : list (string * string)) : list (string * string) :=
  match hs with
  | [] => [(k, v)]
  | (k', v') :: rest =>
      if String.eqb k' k then (k', v) :: rest else (k', v') :: set_header k v rest
  end.

Definition spread (base extra : list (string * string)) : list (string * string) :=
  fold_left (fun acc kv => set_header (fst kv) (snd kv) acc) extra base.

(** *** Caller-side parameter records ([src/types.ts]) *)

Record ChatMessage : Type := { role : string; content : string }.

Record TokenizeOptions : Type := {
  add_special : option bool;
  with_pieces : option bool
}.

Record CompletionOptions : Type := {
  max_tokens : option number;
  temperature : option number;
  top_p : option number;
  top_k : option number;
  stop : option (list string);
  seed : option number
}.

Record ChatOptions : Type := {
  chat_max_tokens : option number;
  chat_temperature : option number;
  chat_top_p : option number;
  chat_stop : option (list string);
  chat_seed : option number
}.

Record InfillOptions : Type := {
  infill_max_tokens : option number;
  infill_temperature : option number;
  infill_stop : option (list string)
}.

Record LoraAdapterUpdate : Type := { id : number; scale : number }.

Definition js_message (m : ChatMessage) : JsValue :=
  JObject [("role", JString (role m)); ("content", JString (content m))].

Definition js_messages (ms : list ChatMessage) : JsValue :=
  JArray (map js_message ms).

Definition js_adapter_update (a : LoraAdapterUpdate) : JsValue :=
  JObject [("id", JNumber (id a)); ("scale", JNumber (scale a))].

(** *** The client interface *)

Record LlamaClient : Type := {
  baseUrl : string;
  client_timeout : Z;
  health : IO JsValue;
  props : option (list (string * JsValue)) -> IO JsValue;
  models : IO JsValue;
  slots : IO JsValue;
  metrics : IO string;
  tokenize : string -> option TokenizeOptions -> IO JsValue;
  detokenize : list number -> IO JsValue;
  applyTemplate : list ChatMessage -> IO JsValue;
  complete : string -> option CompletionOptions -> IO JsValue;
  chat : list ChatMessage -> option ChatOptions -> IO JsValue;
  embed : string -> IO JsValue;
  infill : string -> string -> option InfillOptions -> IO JsValue;
  rerank : string -> list string -> IO JsValue;
  loadModel : string -> IO unit;
  unloadModel : string -> IO unit;
  loraList : IO JsValue;
  loraSet : list LoraAdapterUpdate -> IO JsValue
}.

Section CreateClient.

Context {host : Host}.
Variable config : Config.Config.

Let the_baseUrl : string := Config.serverUrl config.
Let the_timeout : Z := Config.timeout config.

(** [await fetch(url, init)]: one request goes out, and the promise
    resolves with a response or rejects (connection refused, aborted). *)
Definition fetch (url : string) (init : RequestInit) : IO Response :=
  emit (Fetch url init) ;;
  match fetch_outcome url init with
  | Resolves r => ret r
  | Rejects e => throw e
  end.

(** [{ method: 'POST', body }], the options every writing method passes. *)
Definition post (b : string) : option RequestInit :=
  Some {| method := Some "POST"; body := Some b; signal := false; headers := None |}.

Definition fetchJson (path : string) (options : option RequestInit) : IO JsValue :=
  emit (SetTimeout the_timeout) ;;
  finally
    (response <- fetch (the_baseUrl ++ path)
       {| method := options ?. method;
          body := options ?. body;
          signal := true;
          headers := Some (spread [("Content-Type", "application/json")]
                                  (options ?. headers ?? [])) |} ;;
     if negb (ok response)
     then throw (Error ("HTTP " ++ String_of_Z (status response) ++ ": "
                          ++ statusText response))
     else settle (json response))
    (emit ClearTimeout).

Definition fetchText (path : string) : IO string :=
  emit (SetTimeout the_timeout) ;;
  finally
    (response <- fetch (the_baseUrl ++ path)
       {| method := None; body := None; signal := true; headers := None |} ;;
     if negb (ok response)
     then throw (Error ("HTTP " ++ String_of_Z (status response) ++ ": "
                          ++ statusText response))
     else settle (text response))
    (emit ClearTimeout).

Definition createClient : LlamaClient := {|
  baseUrl := the_baseUrl;
  client_timeout := the_timeout;

  health := fetchJson "/health" None;

  props := fun settings =>
    match settings with
    | Some s =>
        fetchJson "/props"
          (post (JSON_stringify (JObject [("default_generation_settings", JObject s)])))
    | None => fetchJson "/props" None
    end;

  models := fetchJson "/v1/models" None;

  slots := fetchJson "/slots" None;

  metrics := fetchText "/metrics";

  tokenize := fun content options =>
    fetchJson "/tokenize"
      (post (JSON_stringify (JObject [
         ("content", JString content);
         ("add_special", JBool (options ?. add_special ?? true));
         ("with_pieces", JBool (options ?. with_pieces ?? false))])));

  detokenize := fun tokens =>
    fetchJson "/detokenize"
      (post (JSON_stringify (JObject [("tokens", js_numbers tokens)])));

  applyTemplate := fun messages =>
    fetchJson "/apply-template"
      (post (JSON_stringify (JObject [("messages", js_messages messages)])));

  complete := fun prompt options =>
    fetchJson "/completion"
      (post (JSON_stringify (JObject [
         ("prompt", JString prompt);
         ("n_predict", JNumber (options ?. max_tokens ?? 256%float));
         ("temperature", JNumber (options ?. temperature ?? 0.7%float));
         ("top_p", JNumber (options ?. top_p ?? 0.9%float));
         ("top_k", JNumber (options ?. top_k ?? 40%float));
         ("stop", js_optional js_strings (options ?. stop));
         ("seed", js_optional JNumber (options ?. seed))])));

  chat := fun messages options =>
    fetchJson "/v1/chat/completions"
      (post (JSON_stringify (JObject [
         ("messages", js_messages messages);
         ("max_tokens", JNumber (options ?. chat_max_tokens ?? 256%float));
         ("temperature", JNumber (options ?. chat_temperature ?? 0.7%float));
         ("top_p", JNumber (options ?. chat_top_p ?? 0.9%float));
         ("stop", js_optional js_strings (options ?. chat_stop));
         ("seed", js_optional JNumber (options ?. chat_seed))])));

  embed := fun content =>
    fetchJson "/embedding"
      (post (JSON_stringify (JObject [("content", JString content)])));

  infill := fun prefix suffix options =>
    fetchJson "/infill"
      (post (JSON_stringify (JObject [
         ("input_prefix", JString prefix);
         ("input_suffix", JString suffix);
         ("n_predict", JNumber (options ?. infill_max_tokens ?? 256%float));
         ("temperature", JNumber (options ?. infill_temperature ?? 0.7%float));
         ("stop", js_optional js_strings (options ?. infill_stop))])));

  rerank := fun query documents =>
    fetchJson "/reranking"
      (post (JSON_stringify (JObject [
         ("query", JString query);
         ("documents", js_strings documents)])));

  loadModel := fun model =>
    fetchJson "/models/load"
      (post (JSON_stringify (JObject [("model", JString model)]))) ;;
    ret tt;

  unloadModel := fun model =>
    fetchJson "/models/unload"
      (post (JSON_stringify (JObject [("model", JString model)]))) ;;
    ret tt;

  loraList := fetchJson "/lora-adapters" None;

  loraSet := fun adapters =>
    fetchJson "/lora-adapters"
      (post (JSON_stringify (JArray (map js_adapter_update adapters))))
|}.

End CreateClient.

(** The transport calls among the effects of a run. *)
Fixpoint transport_calls (t : list Effect) : list (string * RequestInit) :=
  match t with
  | [] => []
  | Fetch url init :: rest => (url, init) :: transport_calls rest
  | _ :: rest => transport_calls rest
  end.

End Client.

(** ** The process tools ([src/tools/process.ts]) *)

Module Process.

(** A [ChildProcess] object: [handle] is the object's identity, [child_pid]
    its [pid] property, [undefined] ([None]) when the spawn failed. *)
Record ChildProcess : Type := {
  handle : nat;
  child_pid : option Z
}.

Record ProcessState : Type := {
  process : option ChildProcess;
  pid : option Z
}.

Definition createProcessState : ProcessState :=
  {| process := None; pid := None |}.

(** [z.infer<typeof StartInputSchema>]: the numeric fields are
    [z.number()], any JS number; the handler reads them through [??]. *)
Record StartInput : Type := {
  model : string;
  port : option number;
  ctx_size : option number;
  n_gpu_layers : option number;
  threads : option number
}.

Record ContentItem : Type := { type : string; text : string }.

Record ToolResult : Type := {
  content : list ContentItem;
  isError : option bool
}.

(** What the tools do to the outside, and what reaches them from there. *)
Inductive Event : Type :=
| Spawn (command : string) (args : list string)
| OnExit (child : nat)
| Kill (child : nat) (sig : string)
| Health
| Sleep (ms : Z)
| Exited (child : nat).

(** The answers of the outside world, in the order they will be asked for. *)
Definition Stream (A : Type) : Type := nat -> A.
Definition shead {A : Type} (s : Stream A) : A := s O.
Definition stail {A : Type} (s : Stream A) : Stream A := fun n => s (S n).

Record Future : Type := {
  spawns : Stream (Completion ChildProcess);
  healths : Stream (Completion JsValue);
  kills : Stream (Completion bool);
  exits : Stream (list nat)
}.

(** The world the handlers run in: the shared [state] object, the child
    processes that carry an ['exit'] listener, the events so far (oldest
    first), and what the outside will answer.  [spawns], [healths] and
    [kills] answer the calls to [spawn], [client.health] and
    [ChildProcess.kill]; [exits] lists, for each [await], the children whose
    ['exit'] event is delivered while the handler is suspended there. *)
Record World : Type := {
  state : ProcessState;
  listeners : list nat;
  trace : list Event;
  future : Future
}.

(** The host: [JSON.stringify(value, null, space)], [String(x)] for a
    number [x], and zod's [StartInputSchema.parse]. *)
Class Host : Type := {
  JSON_stringify : JsValue -> Z -> string;
  String_of_number : number -> string;
  StartInputSchema_parse : JsValue -> Completion StartInput
}.

Definition Proc (A : Type) : Type := World -> World * Completion A.

Definition ret {A : Type} (a : A) : Proc A := fun w => (w, Normal a).

Definition throw {A : Type} (e : Exception) : Proc A := fun w => (w, Throw e).

Definition settle {A : Type} (c : Completion A) : Proc A := fun w => (w, c).

Definition bind {A B : Type} (m : Proc A) (k : A -> Proc B) : Proc B :=
  fun w =>
    match m w with
    | (w', Normal a) => k a w'
    | (w', Throw e) => (w', Throw e)
    end.

(** [try { m } catch (error) { h error }] *)
Definition try_catch {A : Type} (m : Proc A) (h : Exception -> Proc A) : Proc A :=
  fun w =>
    match m w with
    | (w', Normal a) => (w', Normal a)
    | (w', Throw e) => h e w'
    end.

Notation "x <- m ;; k" := (bind m (fun x => k))
  (at level 61, m at next level, right associativity).
Notation "m ;; k" := (bind m (fun _ => k))
  (at level 61, right associativity).

Definition log (e : Event) : Proc unit :=
  fun w => ({| state := state w; listeners := listeners w;
               trace := (trace w ++ [e])%list; future := future w |}, Normal tt).

Definition get_state : Proc ProcessState := fun w => (w, Normal (state w)).

(** [state.process = p] *)
Definition set_process (p : option ChildProcess) : Proc unit :=
  fun w => ({| state := {| process := p; pid := pid (state w) |};
               listeners := listeners w; trace := trace w; future := future w |},
            Normal tt).

(** [state.pid = p] *)
Definition set_pid (p : option Z) : Proc unit :=
  fun w => ({| state := {| process := process (state w); pid := p |};
               listeners := listeners w; trace := trace w; future := future w |},
            Normal tt).

Definition with_future (f : Future) (w : World) : World :=
  {| state := state w; listeners := listeners w; trace := trace w; future := f |}.

(** The listener [start] registers on the child:
    [() => { state.process = null; state.pid = null; }] *)
Definition exit_listener : Proc unit :=
  set_process None ;; set_pid None.

(** The child-exit notification: the ['exit'] event of [child] is emitted,
    and its listener, when one is registered, runs. *)
Definition child_exit (child : nat) : World -> World :=
  fun w =>
    if existsb (Nat.eqb child) (listeners w)
    then fst ((log (Exited child) ;; exit_listener) w)
    else w.

(** A suspension at an [await]: the exit events due now are delivered. *)
Definition await_point : Proc unit :=
  fun w =>
    let f := future w in
    let w1 := with_future {| spawns := spawns f; healths := healths f;
                             kills := kills f; exits := stail (exits f) |} w in
    (fold_left (fun acc child => child_exit child acc) (shead (exits f)) w1,
     Normal tt).

(** [spawn(command, args, { stdio: ['ignore', 'pipe', 'pipe'], detached: false })] *)
Definition spawn (command : string) (args : list string) : Proc ChildProcess :=
  log (Spawn command args) ;;
  fun w =>
    let f := future w in
    (with_future {| spawns := stail (spawns f); healths := healths f;
                    kills := kills f; exits := exits f |} w,
     shead (spawns f)).

(** [child.on('exit', listener)] *)
Definition on_exit (child : ChildProcess) : Proc unit :=
  log (OnExit (handle child)) ;;
  fun w => ({| state := state w; listeners := handle child :: listeners w;
               trace := trace w; future := future w |}, Normal tt).

(** [child.kill(sig)] *)
Definition kill (child : ChildProcess) (sig : string) : Proc bool :=
  log (Kill (handle child) sig) ;;
  fun w =>
    let f := future w in
    (with_future {| spawns := spawns f; healths := healths f;
                    kills := stail (kills f); exits := exits f |} w,
     shead (kills f)).

(** [await client.health()] *)
Definition client_health : Proc JsValue :=
  log Health ;;
  await_point ;;
  fun w =>
    let f := future w in
    (with_future {| spawns := spawns f; healths := stail (healths f);
                    kills := kills f; exits := exits f |} w,
     shead (healths f)).

(** [await new Promise((resolve) => setTimeout(resolve, ms))] *)
Definition sleep (ms : Z) : Proc unit :=
  log (Sleep ms) ;; await_point.

(** [health.status]: reading a property of [undefined] or [null] throws a
    [TypeError]; a value without the property gives [undefined]. *)
Definition status_of (health : JsValue) : Completion JsValue :=
  match health with
  | JUndefined | JNull =>
      Throw (ErrorObject "TypeError" "Cannot read properties of undefined (reading 'status')")
  | JObject fields => Normal (field "status" fields ?? JUndefined)
  | _ => Normal JUndefined
  end.

(** [v === s] for a string literal [s] *)
Definition is_string (v : JsValue) (s : string) : bool :=
  match v with
  | JString s' => String.eqb s' s
  | _ => false
  end.

(** One iteration of [waitForHealth]'s loop.  It ends with [Some b] for
    [return b], and with [None] when the loop goes on to the next [i]. *)
Definition attempt (delayMs : Z) : Proc (option bool) :=
  try_catch
    (health <- client_health ;;
     st <- settle (status_of health) ;;
     if is_string st "ok" then ret (Some true)
     else if is_string st "loading_model" then sleep delayMs ;; ret None
     else ret None)
    (fun _ => sleep delayMs ;; ret None).

(** [for (let i = 0; i < maxAttempts; i++) { ... } return false;] with
    [remaining] iterations to go before [i] reaches [maxAttempts]. *)
Fixpoint waitForHealth_loop (remaining : nat) (delayMs : Z) : Proc bool :=
  match remaining with
  | O => ret false
  | S rest =>
      step <- attempt delayMs ;;
      match step with
      | Some b => ret b
      | None => waitForHealth_loop rest delayMs
      end
  end.

Definition waitForHealth (maxAttempts : nat) (delayMs : Z) : Proc bool :=
  waitForHealth_loop maxAttempts delayMs.

(** The default arguments of [waitForHealth]. *)
Definition default_maxAttempts : nat := 30.
Definition default_delayMs : Z := 1000.

(** [!pid] for [pid : number | undefined] *)
Definition falsy (p : option Z) : bool :=
  match p with
  | None => true
  | Some n => n =? 0
  end.

Definition js_nullable (p : option Z) : JsValue :=
  match p with
  | Some n => JNumber (number_of_Z n)
  | None => JNull
  end.

Definition error_result (message : string) : ToolResult :=
  {| content := [{| type := "text"; text := message |}]; isError := Some true |}.

Definition text_result (message : string) : ToolResult :=
  {| content := [{| type := "text"; text := message |}]; isError := None |}.

(** A [Tool], without its [inputSchema]. *)
Record Tool : Type := {
  name : string;
  description : string;
  handler : JsValue -> Proc ToolResult
}.

Section Tools.

Context {host : Host}.
Variable config : Config.Config.

(** The handler of [createStartTool(client, config, state)].  The [client]
    and the [state] object are those of the world: [client.health] answers
    from [healths], and [state] is the world's process state. *)
Definition start_handler (input : JsValue) : Proc ToolResult :=
  try_catch
    (parsed <- settle (StartInputSchema_parse input) ;;
     st <- get_state ;;
     match process st, pid st with
     | Some _, Some p =>
         ret (error_result ("Error: llama-server is already running with PID "
                              ++ String_of_Z p ++ ". Use llama_stop first."))
     | _, _ =>
         let args :=
           (["-m"; model parsed;
             "--port"; String_of_number (port parsed ?? 8080%float);
             "-c"; String_of_number (ctx_size parsed ?? 2048%float);
             "-ngl"; String_of_number (n_gpu_layers parsed ?? (-1)%float)]
            ++ match threads parsed with
               | Some t => ["-t"; String_of_number t]
               | None => []
               end)%list in
         serverProcess <- spawn (Config.serverPath config) args ;;
         if falsy (child_pid serverProcess)
         then
           ret (error_result ("Error: Failed to start llama-server at "
                                ++ Config.serverPath config
                                ++ ". Check that the binary exists and is executable."))
         else
           set_process (Some serverProcess) ;;
           set_pid (child_pid serverProcess) ;;
           on_exit serverProcess ;;
           healthy <- waitForHealth default_maxAttempts default_delayMs ;;
           if negb healthy
           then
             kill serverProcess "SIGTERM" ;;
             set_process None ;;
             set_pid None ;;
             ret (error_result "Error: llama-server started but did not become healthy within 30 seconds. Check model path and server logs.")
           else
             st' <- get_state ;;
             ret (text_result (JSON_stringify (JObject [
                    ("status", JString "started");
                    ("pid", js_nullable (pid st'));
                    ("model", JString (model parsed));
                    ("port", JNumber (port parsed ?? 8080%float))]) 2))
     end)
    (fun error => ret (error_result ("Error: " ++ message_of error))).

(** The handler of [createStopTool(state)]. *)
Definition stop_handler : Proc ToolResult :=
  try_catch
    (st <- get_state ;;
     match process st, pid st with
     | Some child, Some p =>
         kill child "SIGTERM" ;;
         set_process None ;;
         set_pid None ;;
         ret (text_result (JSON_stringify (JObject [
                ("status", JString "stopped");
                ("pid", JNumber (number_of_Z p))]) 2))
     | _, _ =>
         ret (error_result "Error: llama-server is not running. Nothing to stop.")
     end)
    (fun error => ret (error_result ("Error: " ++ message_of error))).

Definition createStartTool : Tool := {|
  name := "llama_start";
  description := "Start llama-server as a child process with the specified model";
  handler := start_handler
|}.

Definition createStopTool : Tool := {|
  name := "llama_stop";
  description := "Stop the running llama-server process";
  handler := fun _ => stop_handler
|}.

(** The public operations on the process state, and a run of several. *)
Inductive Operation : Type :=
| Start (input : JsValue)
| Stop
| ChildExit (child : nat).

Definition perform (op : Operation) (w : World) : World :=
  match op with
  | Start input => fst (handler createStartTool input w)
  | Stop => fst (handler createStopTool (JObject []) w)
  | ChildExit child => child_exit child w
  end.

Definition run (ops : list Operation) (w : World) : World :=
  fold_left (fun acc op => perform op acc) ops w.

End Tools.

(** The process state invariant: a handle is held exactly when a pid is. *)
Definition consistent (s : ProcessState) : Prop :=
  process s <> None <-> pid s <> None.

End Process.

(** ** Vocabulary of the statements *)

Module ClientSpec.
Import Client.

(** The [init] that [fetchJson] hands to [fetch], given its [options]. *)
Definition sent (options : option RequestInit) : RequestInit :=
  {| method := options ?. method;
     body := options ?. body;
     signal := true;
     headers := Some (spread [("Content-Type", "application/json")]
                             (options ?. headers ?? [])) |}.

(** The [init] that [fetchJson] hands to [fetch] for a writing method whose
    serialised body is [b]. *)
Definition posted (b : string) : RequestInit :=
  {| method := Some "POST";
     body := Some b;
     signal := true;
     headers := Some [("Content-Type", "application/json")] |}.

(** The [init] of a reading method of [fetchJson], and that of [fetchText]. *)
Definition read_json : RequestInit :=
  {| method := None;
     body := None;
     signal := true;
     headers := Some [("Content-Type", "application/json")] |}.

Definition read_text : RequestInit :=
  {| method := None; body := None; signal := true; headers := None |}.

(** One call of a client method with its arguments, and what it resolves
    with. *)
Inductive Call : Type :=
| CallHealth
| CallProps (settings : option (list (string * JsValue)))
| CallModels
| CallSlots
| CallMetrics
| CallTokenize (content : string) (options : option TokenizeOptions)
| CallDetokenize (tokens : list number)
| CallApplyTemplate (messages : list ChatMessage)
| CallComplete (prompt : string) (options : option CompletionOptions)
| CallChat (messages : list ChatMessage) (options : option ChatOptions)
| CallEmbed (content : string)
| CallInfill (prefix suffix : string) (options : option InfillOptions)
| CallRerank (query : string) (documents : list string)
| CallLoadModel (model : string)
| CallUnloadModel (model : string)
| CallLoraList
| CallLoraSet (adapters : list LoraAdapterUpdate).

Inductive Reply : Type :=
| ReplyJson (v : JsValue)
| ReplyText (s : string)
| ReplyVoid.

Definition replying {A : Type} (wrap : A -> Reply) (m : IO A) : IO Reply :=
  (fst m, match snd m with
          | Normal a => Normal (wrap a)
          | Throw e => Throw e
          end).

Definition invoke (c : LlamaClient) (call : Call) : IO Reply :=
  match call with
  | CallHealth => replying ReplyJson (health c)
  | CallProps settings => replying ReplyJson (props c settings)
  | CallModels => replying ReplyJson (models c)
  | CallSlots => replying ReplyJson (slots c)
  | CallMetrics => replying ReplyText (metrics c)
  | CallTokenize content options => replying ReplyJson (tokenize c content options)
  | CallDetokenize tokens => replying ReplyJson (detokenize c tokens)
  | CallApplyTemplate messages => replying ReplyJson (applyTemplate c messages)
  | CallComplete prompt options => replying ReplyJson (complete c prompt options)
  | CallChat messages options => replying ReplyJson (chat c messages options)
  | CallEmbed content => replying ReplyJson (embed c content)
  | CallInfill prefix suffix options => replying ReplyJson (infill c prefix suffix options)
  | CallRerank query documents => replying ReplyJson (rerank c query documents)
  | CallLoadModel model => replying (fun _ => ReplyVoid) (loadModel c model)
  | CallUnloadModel model => replying (fun _ => ReplyVoid) (unloadModel c model)
  | CallLoraList => replying ReplyJson (loraList c)
  | CallLoraSet adapters => replying ReplyJson (loraSet c adapters)
  end.

(** The server answers every request of the run [t] with [r]. *)
Definition answers_with {host : Host} (t : list Effect) (r : Response) : Prop :=
  forall url init, In (url, init) (transport_calls t) ->
                   fetch_outcome url init = Resolves r.

End ClientSpec.

Module ProcessSpec.
Import Process.

(** The computation [m] leaves a consistent process state consistent,
    however it ends. *)
Definition keeps {A : Type} (m : Proc A) : Prop :=
  forall w, consistent (state w) -> consistent (state (fst (m w))).

(** The health call settled with a response whose [status] is ["ok"]. *)
Definition reports_ok (c : Completion JsValue) : bool :=
  match c with
  | Normal v =>
      match status_of v with
      | Normal st => is_string st "ok"
      | Throw _ => false
      end
  | Throw _ => false
  end.

(** The calls of [client.health] among the events [t]. *)
Fixpoint health_calls (t : list Event) : nat :=
  match t with
  | [] => O
  | Health :: rest => S (health_calls rest)
  | _ :: rest => health_calls rest
  end.

(** [w'] has the events of [w] and then further ones, [n] of them calls
    of [client.health]. *)
Definition grows (n : nat) (w w' : World) : Prop :=
  exists evs, trace w' = (trace w ++ evs)%list /\ health_calls evs = n.

End ProcessSpec.

(** ** Sample hosts, to run the model on concrete inputs *)

Module Samples.

Definition quote : string := String (ascii_of_nat 34) EmptyString.

Fixpoint zeros (n : nat) : string :=
  match n with
  | O => ""
  | S k => "0" ++ zeros k
  end.

(** [m / 2^k] in lowest terms. *)
Fixpoint lowest (fuel : nat) (m k : Z) : Z * Z :=
  match fuel with
  | O => (m, k)
  | S f => if (0 <? k) && Z.even m then lowest f (m / 2) (k - 1) else (m, k)
  end.

(** The decimal expansion of [m / 2^k], which is [m * 5^k / 10^k]. *)
Definition decimal_of (m k : Z) : string :=
  let digits := String_of_Z (m * 5 ^ k) in
  let padded := zeros (Z.to_nat (k + 1) - String.length digits) ++ digits in
  let n := (String.length padded - Z.to_nat k)%nat in
  substring 0 n padded ++ "." ++ substring n (Z.to_nat k) padded.

(** A number in decimal, with all the digits of its binary64 value. *)
Definition sample_number (x : number) : string :=
  match Prim2SF x with
  | S754_zero _ => "0"
  | S754_finite s m e =>
      (if s then "-" else "") ++
      (if 0 <=? e then String_of_Z (Z.pos m * 2 ^ e)
       else let (m', k) := lowest (Z.to_nat (- e)) (Z.pos m) (- e) in
            if k =? 0 then String_of_Z m' else decimal_of m' k)
  | _ => "null"
  end.

(** A stand-in for [JSON.stringify]: compact, strings unescaped, numbers
    with all their digits instead of the shortest numeral.  [None] stands
    for the [undefined] that [JSON.stringify(undefined)] returns. *)
Fixpoint sample_json (v : JsValue) : option string :=
  match v with
  | JUndefined => None
  | JNull => Some "null"
  | JBool b => Some (if b then "true" else "false")
  | JNumber x =>
      Some (sample_number x)
  | JString s => Some (quote ++ s ++ quote)
  | JArray items =>
      Some ("[" ++ String.concat "," (map (fun i => sample_json i ?? "null") items) ++ "]")
  | JObject fields =>
      Some ("{" ++ String.concat ","
                     (flat_map (fun kv : string * JsValue =>
                                  let (k, x) := kv in
                                  match sample_json x with
                                  | Some t => [quote ++ k ++ quote ++ ":" ++ t]
                                  | None => []
                                  end) fields) ++ "}")
  end.

Definition sample_stringify (v : JsValue) : string := sample_json v ?? "undefined".

Definition sample_config : Config.Config :=
  {| Config.serverUrl := "http://localhost:8080";
     Config.timeout := 30000;
     Config.modelPath := None;
     Config.serverPath := "llama-server" |}.

(** A server that answers every request with the same response. *)
Definition constant_server (r : Client.Response) : Client.Host :=
  {| Client.JSON_stringify := sample_stringify;
     Client.fetch_outcome := fun _ _ => Client.Resolves r |}.

Definition internal_error : Client.Response :=
  {| Client.status := 500;
     Client.statusText := "Internal Server Error";
     Client.json := Normal (JObject [("error", JString "boom")]);
     Client.text := Normal "boom" |}.

(** A success without a body: [json()] rejects on the empty text. *)
Definition no_content : Client.Response :=
  {| Client.status := 204;
     Client.statusText := "No Content";
     Client.json := Throw (ErrorObject "SyntaxError" "Unexpected end of JSON input");
     Client.text := Normal "" |}.

Definition success_body : Client.Response :=
  {| Client.status := 200;
     Client.statusText := "OK";
     Client.json := Normal (JObject [("success", JBool true)]);
     Client.text := Normal "{}" |}.

(** Options that ask for the temperature 0 and nothing else. *)
Definition cold : Client.CompletionOptions :=
  {| Client.max_tokens := None; Client.temperature := Some 0%float;
     Client.top_p := None; Client.top_k := None; Client.stop := None;
     Client.seed := None |}.

(** A stand-in for [StartInputSchema.parse]: it reads [model], which must
    be a string, and gives the other fields the defaults of the schema. *)
Definition sample_parse (input : JsValue) : Completion Process.StartInput :=
  match input with
  | JObject fields =>
      match field "model" fields with
      | Some (JString m) =>
          Normal {| Process.model := m;
                    Process.port := Some 8080%float;
                    Process.ctx_size := Some 2048%float;
                    Process.n_gpu_layers := Some (-1)%float;
                    Process.threads := None |}
      | _ => Throw (ErrorObject "ZodError" "model: Required")
      end
  | _ => Throw (ErrorObject "ZodError" "Expected object")
  end.

(** The indentation is left out of the sample output, and a number is
    printed with all its digits, as [String] prints the integers of the
    samples. *)
Definition process_host : Process.Host :=
  {| Process.JSON_stringify := fun v _ => sample_stringify v;
     Process.String_of_number := sample_number;
     Process.StartInputSchema_parse := sample_parse |}.

Definition start_input (m : string) : JsValue := JObject [("model", JString m)].

Definition health_response (st : string) : Completion JsValue :=
  Normal (JObject [("status", JString st);
                   ("slots_idle", JNumber 0%float);
                   ("slots_processing", JNumber 0%float)]).

Definition refused : Completion JsValue :=
  Throw (ErrorObject "TypeError" "fetch failed").

Definition child (h : nat) (p : Z) : Process.ChildProcess :=
  {| Process.handle := h; Process.child_pid := Some p |}.

(** [l], then [d] for ever. *)
Definition script {A : Type} (l : list A) (d : A) : Process.Stream A :=
  fun n => nth n l d.

Definition fresh (f : Process.Future) : Process.World :=
  {| Process.state := Process.createProcessState;
     Process.listeners := [];
     Process.trace := [];
     Process.future := f |}.

(** Process 1 (pid 4001) is spawned first, process 2 (pid 4002) next; the
    server is healthy at once, signals are delivered, and no child exits
    while a handler is suspended. *)
Definition two_servers : Process.Future :=
  {| Process.spawns := script [Normal (child 1 4001)] (Normal (child 2 4002));
     Process.healths := script [] (health_response "ok");
     Process.kills := script [] (Normal true);
     Process.exits := script [] [] |}.

(** The server reports the status [error] once, then [ok]. *)
Definition error_then_ok : Process.Future :=
  {| Process.spawns := script [] (Normal (child 1 4001));
     Process.healths := script [health_response "error"] (health_response "ok");
     Process.kills := script [] (Normal true);
     Process.exits := script [] [] |}.

(** The server reports the status [error] every time. *)
Definition always_error : Process.Future :=
  {| Process.spawns := script [] (Normal (child 1 4001));
     Process.healths := script [] (health_response "error");
     Process.kills := script [] (Normal true);
     Process.exits := script [] [] |}.

(** The server never answers; [k] is how sending a signal ends. *)
Definition never_up (k : Completion bool) : Process.Future :=
  {| Process.spawns := script [] (Normal (child 1 4001));
     Process.healths := script [] refused;
     Process.kills := script [] k;
     Process.exits := script [] [] |}.

Definition running (c : Process.ChildProcess) (p : Z) (f : Process.Future) : Process.World :=
  {| Process.state := {| Process.process := Some c; Process.pid := Some p |};
     Process.listeners := [Process.handle c];
     Process.trace := [];
     Process.future := f |}.

End Samples.

(** ** Vocabulary for the polling loop and the runs of [start] *)

Module PollingSpec.
Import Process ProcessSpec.

(** The events of [waitForHealth]: its calls, its pauses, and the exit
    events delivered while it is suspended. *)
Definition polling_event (e : Event) : bool :=
  match e with
  | Health | Sleep _ | Exited _ => true
  | _ => false
  end.

(** The attempt ends in the pause: the call rejected, the response had no
    readable [status], or the status was ["loading_model"]. *)
Definition pauses (c : Completion JsValue) : bool :=
  match c with
  | Throw _ => true
  | Normal v =>
      match status_of v with
      | Throw _ => true
      | Normal st => negb (is_string st "ok") && is_string st "loading_model"
      end
  end.

(** No exit event is delivered at any [await] to come. *)
Definition calm (w : World) : Prop :=
  forall i, exits (future w) i = [].

(** From [w] to [w'] the loop has only polled: its events are polling
    events, and it has used no answer of [spawn] or [kill] and registered
    no listener. *)
Definition polled (w w' : World) : Prop :=
  exists evs,
    trace w' = (trace w ++ evs)%list
    /\ forallb polling_event evs = true
    /\ spawns (future w') = spawns (future w)
    /\ kills (future w') = kills (future w)
    /\ listeners w' = listeners w.

(** From [w] to [w'] the events [evs] happened and [n] answers of
    [client.health] were used, with no exit event: the process state and
    the listeners are the same. *)
Definition quiet (evs : list Event) (n : nat) (w w' : World) : Prop :=
  state w' = state w
  /\ listeners w' = listeners w
  /\ trace w' = (trace w ++ evs)%list
  /\ (forall i, healths (future w') i = healths (future w) (n + i)%nat)
  /\ kills (future w') = kills (future w)
  /\ spawns (future w') = spawns (future w)
  /\ calm w'.

(** The argument list [start] builds from its parsed input: each number
    goes through the host's [String]. *)
Definition start_args {host : Host} (parsed : StartInput) : list string :=
  (["-m"; model parsed;
    "--port"; String_of_number (port parsed ?? 8080%float);
    "-c"; String_of_number (ctx_size parsed ?? 2048%float);
    "-ngl"; String_of_number (n_gpu_layers parsed ?? (-1)%float)]
   ++ match threads parsed with
      | Some t => ["-t"; String_of_number t]
      | None => []
      end)%list.

(** The world in which [start] begins to poll: the child is spawned and
    recorded, and its exit listener is registered. *)
Definition spawned (command : string) (args : list string) (child : ChildProcess)
           (w : World) : World :=
  {| state := {| process := Some child; pid := child_pid child |};
     listeners := handle child :: listeners w;
     trace := ((trace w ++ [Spawn command args]) ++ [OnExit (handle child)])%list;
     future := {| spawns := stail (spawns (future w));
                  healths := healths (future w);
                  kills := kills (future w);
                  exits := exits (future w) |} |}.

(** The first attempt that reports [ok] is attempt [k]. *)
Definition first_ok (k : nat) (w : World) : Prop :=
  (forall i, (i < k)%nat -> reports_ok (healths (future w) i) = false)
  /\ reports_ok (healths (future w) k) = true.

End PollingSpec.

(** ** The tools over the client ([src/tools/server.ts],
       [src/tools/inference.ts], [src/tools/models.ts], [src/tools/lora.ts]) *)

Module Tools.
Import Client.

(** [s.includes(sub)]: [sub] occurs in [s]. *)
Fixpoint includes (s sub : string) : bool :=
  String.prefix sub s
  || match s with
     | EmptyString => false
     | String _ rest => includes rest sub
     end.

(** The same function stands at the head of each of the four files. *)
Definition formatError (message baseUrl : string) : string :=
  if includes message "ECONNREFUSED" || includes message "fetch failed"
  then "Cannot connect to llama-server at " ++ baseUrl
         ++ ". Is it running? Use llama_start or start it manually."
  else if includes message "abort" || includes message "timeout"
  then "Request timed out. Try reducing max_tokens or check server load."
  else message.

(** [try { m } catch (error) { h error }] for the client's computations. *)
Definition try_catch {A : Type} (m : IO A) (h : Exception -> IO A) : IO A :=
  match m with
  | (t, Normal a) => (t, Normal a)
  | (t, Throw e) => let (t', r) := h e in ((t ++ t')%list, r)
  end.

(** What the schemas give back, [z.infer] of each. *)
Record PropsInput : Type := {
  default_generation_settings : option (list (string * JsValue))
}.

Record CompleteInput : Type := {
  complete_prompt : string;
  complete_max_tokens : number;
  complete_temperature : number;
  complete_top_p : number;
  complete_top_k : number;
  complete_stop : option (list string);
  complete_seed : option number
}.

Record ChatInput : Type := {
  chat_messages : list ChatMessage;
  chat_input_max_tokens : number;
  chat_input_temperature : number;
  chat_input_top_p : number;
  chat_input_stop : option (list string);
  chat_input_seed : option number
}.

Record EmbedInput : Type := { embed_content : string }.

Record InfillInput : Type := {
  input_prefix : string;
  input_suffix : string;
  infill_input_max_tokens : number;
  infill_input_temperature : number;
  infill_input_stop : option (list string)
}.

Record RerankInput : Type := {
  rerank_query : string;
  rerank_documents : list string
}.

Record LoadModelInput : Type := { load_model : string }.

Record UnloadModelInput : Type := { unload_model : string }.

Record LoraSetInput : Type := { adapters : list LoraAdapterUpdate }.

(** The host of the tools: [JSON.stringify(value, null, space)] and the
    [parse] of each zod schema. *)
Class Host : Type := {
  JSON_stringify_indent : JsValue -> Z -> string;
  PropsInputSchema_parse : JsValue -> Completion PropsInput;
  CompleteInputSchema_parse : JsValue -> Completion CompleteInput;
  ChatInputSchema_parse : JsValue -> Completion ChatInput;
  EmbedInputSchema_parse : JsValue -> Completion EmbedInput;
  InfillInputSchema_parse : JsValue -> Completion InfillInput;
  RerankInputSchema_parse : JsValue -> Completion RerankInput;
  LoadModelInputSchema_parse : JsValue -> Completion LoadModelInput;
  UnloadModelInputSchema_parse : JsValue -> Completion UnloadModelInput;
  LoraSetInputSchema_parse : JsValue -> Completion LoraSetInput
}.

(** A [Tool], without its [inputSchema]. *)
Record Tool : Type := {
  name : string;
  description : string;
  handler : JsValue -> IO Process.ToolResult
}.

Definition dquote : string := String (ascii_of_nat 34) EmptyString.

Section CreateTools.

Context {host : Host}.
Variable client : LlamaClient.

(** The [catch] block every handler ends with.  What it catches is an
    [Exception]: an [Error] with a string message, or a value that [String]
    converts.  On those neither [String(error)] nor [message.includes]
    throws, so the block returns; a thrown value outside of them (an
    [Error] whose [message] is no string, an object whose [toString]
    throws) is not covered. *)
Definition report (error : Exception) : IO Process.ToolResult :=
  ret (Process.error_result
         ("Error: " ++ formatError (message_of error) (baseUrl client))).

Definition createHealthTool : Tool := {|
  name := "llama_health";
  description := "Check if llama-server is running and get status";
  handler := fun _ =>
    try_catch
      (health <- Client.health client ;;
       ret (Process.text_result (JSON_stringify_indent health 2)))
      report
|}.

Definition createPropsTool : Tool := {|
  name := "llama_props";
  description := "Get or set server properties and default generation settings";
  handler := fun input =>
    try_catch
      (parsed <- settle (PropsInputSchema_parse input) ;;
       props <- Client.props client (default_generation_settings parsed) ;;
       ret (Process.text_result (JSON_stringify_indent props 2)))
      report
|}.

Definition createModelsTool : Tool := {|
  name := "llama_models";
  description := "List available/loaded models";
  handler := fun _ =>
    try_catch
      (models <- Client.models client ;;
       ret (Process.text_result (JSON_stringify_indent models 2)))
      report
|}.

Definition createSlotsTool : Tool := {|
  name := "llama_slots";
  description := "View current slot processing state";
  handler := fun _ =>
    try_catch
      (slots <- Client.slots client ;;
       ret (Process.text_result (JSON_stringify_indent slots 2)))
      report
|}.

Definition createMetricsTool : Tool := {|
  name := "llama_metrics";
  description := "Get Prometheus-compatible metrics (tokens processed, latency, etc.)";
  handler := fun _ =>
    try_catch
      (metrics <- Client.metrics client ;;
       ret (Process.text_result metrics))
      report
|}.

Definition createCompleteTool : Tool := {|
  name := "llama_complete";
  description := "Generate text completion from a prompt";
  handler := fun input =>
    try_catch
      (parsed <- settle (CompleteInputSchema_parse input) ;;
       result <- Client.complete client (complete_prompt parsed)
                   (Some {| max_tokens := Some (complete_max_tokens parsed);
                            temperature := Some (complete_temperature parsed);
                            top_p := Some (complete_top_p parsed);
                            top_k := Some (complete_top_k parsed);
                            stop := complete_stop parsed;
                            seed := complete_seed parsed |}) ;;
       ret (Process.text_result (JSON_stringify_indent result 2)))
      report
|}.

Definition createChatTool : Tool := {|
  name := "llama_chat";
  description := "Chat completion (OpenAI-compatible format)";
  handler := fun input =>
    try_catch
      (parsed <- settle (ChatInputSchema_parse input) ;;
       result <- Client.chat client (chat_messages parsed)
                   (Some {| chat_max_tokens := Some (chat_input_max_tokens parsed);
                            chat_temperature := Some (chat_input_temperature parsed);
                            chat_top_p := Some (chat_input_top_p parsed);
                            chat_stop := chat_input_stop parsed;
                            chat_seed := chat_input_seed parsed |}) ;;
       ret (Process.text_result (JSON_stringify_indent result 2)))
      report
|}.

Definition createEmbedTool : Tool := {|
  name := "llama_embed";
  description := "Generate embeddings for text";
  handler := fun input =>
    try_catch
      (parsed <- settle (EmbedInputSchema_parse input) ;;
       result <- Client.embed client (embed_content parsed) ;;
       ret (Process.text_result (JSON_stringify_indent result 2)))
      report
|}.

Definition createInfillTool : Tool := {|
  name := "llama_infill";
  description := "Code completion with prefix and suffix context (fill-in-middle)";
  handler := fun input =>
    try_catch
      (parsed <- settle (InfillInputSchema_parse input) ;;
       result <- Client.infill client (input_prefix parsed) (input_suffix parsed)
                   (Some {| infill_max_tokens := Some (infill_input_max_tokens parsed);
                            infill_temperature := Some (infill_input_temperature parsed);
                            infill_stop := infill_input_stop parsed |}) ;;
       ret (Process.text_result (JSON_stringify_indent result 2)))
      report
|}.

Definition createRerankTool : Tool := {|
  name := "llama_rerank";
  description := "Rerank documents by relevance to a query";
  handler := fun input =>
    try_catch
      (parsed <- settle (RerankInputSchema_parse input) ;;
       result <- Client.rerank client (rerank_query parsed) (rerank_documents parsed) ;;
       ret (Process.text_result (JSON_stringify_indent result 2)))
      report
|}.

Definition createLoadModelTool : Tool := {|
  name := "llama_load_model";
  description := "Load a model (router mode only)";
  handler := fun input =>
    try_catch
      (parsed <- settle (LoadModelInputSchema_parse input) ;;
       Client.loadModel client (load_model parsed) ;;
       ret (Process.text_result (JSON_stringify_indent (JObject [
              ("success", JBool true);
              ("model", JString (load_model parsed));
              ("message", JString ("Model " ++ dquote ++ load_model parsed ++ dquote
                                     ++ " loaded successfully"))]) 2)))
      report
|}.

Definition createUnloadModelTool : Tool := {|
  name := "llama_unload_model";
  description := "Unload the current model (router mode only)";
  handler := fun input =>
    try_catch
      (parsed <- settle (UnloadModelInputSchema_parse input) ;;
       Client.unloadModel client (unload_model parsed) ;;
       ret (Process.text_result (JSON_stringify_indent (JObject [
              ("success", JBool true);
              ("model", JString (unload_model parsed));
              ("message", JString ("Model " ++ dquote ++ unload_model parsed ++ dquote
                                     ++ " unloaded successfully"))]) 2)))
      report
|}.

Definition createLoraListTool : Tool := {|
  name := "llama_lora_list";
  description := "List loaded LoRA adapters";
  handler := fun _ =>
    try_catch
      (adapters <- Client.loraList client ;;
       ret (Process.text_result (JSON_stringify_indent adapters 2)))
      report
|}.

Definition createLoraSetTool : Tool := {|
  name := "llama_lora_set";
  description := "Set LoRA adapter scales";
  handler := fun input =>
    try_catch
      (parsed <- settle (LoraSetInputSchema_parse input) ;;
       adapters <- Client.loraSet client (adapters parsed) ;;
       ret (Process.text_result (JSON_stringify_indent adapters 2)))
      report
|}.

End CreateTools.

End Tools.

(** ** Vocabulary for the tools *)

Module ToolsSpec.
Import Client Tools.

Inductive ToolId : Type :=
| HealthTool | PropsTool | ModelsTool | SlotsTool | MetricsTool
| CompleteTool | ChatTool | EmbedTool | InfillTool | RerankTool
| LoadModelTool | UnloadModelTool
| LoraListTool | LoraSetTool.

Definition tool {host : Host} (client : LlamaClient) (id : ToolId) : Tool :=
  match id with
  | HealthTool => createHealthTool client
  | PropsTool => createPropsTool client
  | ModelsTool => createModelsTool client
  | SlotsTool => createSlotsTool client
  | MetricsTool => createMetricsTool client
  | CompleteTool => createCompleteTool client
  | ChatTool => createChatTool client
  | EmbedTool => createEmbedTool client
  | InfillTool => createInfillTool client
  | RerankTool => createRerankTool client
  | LoadModelTool => createLoadModelTool client
  | UnloadModelTool => createUnloadModelTool client
  | LoraListTool => createLoraListTool client
  | LoraSetTool => createLoraSetTool client
  end.

Definition failure {A : Type} (c : Completion A) : option Exception :=
  match c with
  | Normal _ => None
  | Throw e => Some e
  end.

(** The error with which the tool's schema rejects [input]; [None] when
    the schema accepts it or the tool reads no input. *)
Definition validation {host : Host} (id : ToolId) (input : JsValue) : option Exception :=
  match id with
  | PropsTool => failure (PropsInputSchema_parse input)
  | CompleteTool => failure (CompleteInputSchema_parse input)
  | ChatTool => failure (ChatInputSchema_parse input)
  | EmbedTool => failure (EmbedInputSchema_parse input)
  | InfillTool => failure (InfillInputSchema_parse input)
  | RerankTool => failure (RerankInputSchema_parse input)
  | LoadModelTool => failure (LoadModelInputSchema_parse input)
  | UnloadModelTool => failure (UnloadModelInputSchema_parse input)
  | LoraSetTool => failure (LoraSetInputSchema_parse input)
  | _ => None
  end.

(** The tools whose success text is the server's response body as
    indented JSON: all but [llama_metrics] and the two model tools. *)
Definition shows_body (id : ToolId) : bool :=
  match id with
  | MetricsTool | LoadModelTool | UnloadModelTool => false
  | _ => true
  end.

(** The text every handler returns for a failed connection. *)
Definition cannot_connect (baseUrl : string) : string :=
  "Error: Cannot connect to llama-server at " ++ baseUrl
    ++ ". Is it running? Use llama_start or start it manually.".

Definition timed_out : string :=
  "Error: Request timed out. Try reducing max_tokens or check server load.".

End ToolsSpec.

(** ** More sample worlds *)

Module MoreSamples.
Import Samples.

(** The executable is missing: [spawn] returns a child without a pid. *)
Definition no_executable : Process.Future :=
  {| Process.spawns :=
       script [] (Normal {| Process.handle := 1; Process.child_pid := None |});
     Process.healths := script [] refused;
     Process.kills := script [] (Normal true);
     Process.exits := script [] [] |}.

(** The server refuses the first call, loads its model during the second
    and is ready at the third. *)
Definition slow_start : Process.Future :=
  {| Process.spawns := script [] (Normal (child 1 4001));
     Process.healths :=
       script [refused; health_response "loading_model"] (health_response "ok");
     Process.kills := script [] (Normal true);
     Process.exits := script [] [] |}.

(** The child exits while the first health call is awaited, and the call
    is answered [ok] all the same. *)
Definition dies_at_once : Process.Future :=
  {| Process.spawns := script [] (Normal (child 1 4001));
     Process.healths := script [] (health_response "ok");
     Process.kills := script [] (Normal true);
     Process.exits := script [[1%nat]] [] |}.

(** A server that cannot be reached: every [fetch] rejects with [e]. *)
Definition unreachable (e : Exception) : Client.Host :=
  {| Client.JSON_stringify := sample_stringify;
     Client.fetch_outcome := fun _ _ => Client.Rejects e |}.

Definition fetch_failed : Exception := ErrorObject "TypeError" "fetch failed".

Definition aborted : Exception :=
  ErrorObject "AbortError" "This operation was aborted".

(** Options given as an object without fields. *)
Definition no_completion_options : Client.CompletionOptions :=
  {| Client.max_tokens := None; Client.temperature := None; Client.top_p := None;
     Client.top_k := None; Client.stop := None; Client.seed := None |}.

Definition no_chat_options : Client.ChatOptions :=
  {| Client.chat_max_tokens := None; Client.chat_temperature := None;
     Client.chat_top_p := None; Client.chat_stop := None; Client.chat_seed := None |}.

Definition no_infill_options : Client.InfillOptions :=
  {| Client.infill_max_tokens := None; Client.infill_temperature := None;
     Client.infill_stop := None |}.

Definition no_tokenize_options : Client.TokenizeOptions :=
  {| Client.add_special := None; Client.with_pieces := None |}.

(** Schemas that accept an object with a string [model], or [prompt], and
    nothing else; the numeric fields get the defaults of the schema. *)
Definition string_field (key : string) (input : JsValue) : Completion string :=
  match input with
  | JObject fields =>
      match field key fields with
      | Some (JString s) => Normal s
      | _ => Throw (ErrorObject "ZodError" (key ++ ": Required"))
      end
  | _ => Throw (ErrorObject "ZodError" "Expected object")
  end.

Definition lift_parse {A B : Type} (f : A -> B) (c : Completion A) : Completion B :=
  match c with
  | Normal a => Normal (f a)
  | Throw e => Throw e
  end.

Definition tools_host : Tools.Host :=
  {| Tools.JSON_stringify_indent := fun v _ => sample_stringify v;
     Tools.PropsInputSchema_parse := fun _ =>
       Normal {| Tools.default_generation_settings := None |};
     Tools.CompleteInputSchema_parse := fun input =>
       lift_parse
         (fun p => {| Tools.complete_prompt := p;
                      Tools.complete_max_tokens := 256%float;
                      Tools.complete_temperature := 0.7%float;
                      Tools.complete_top_p := 0.9%float;
                      Tools.complete_top_k := 40%float;
                      Tools.complete_stop := None;
                      Tools.complete_seed := None |})
         (string_field "prompt" input);
     Tools.ChatInputSchema_parse := fun _ =>
       Throw (ErrorObject "ZodError" "messages: Required");
     Tools.EmbedInputSchema_parse := fun input =>
       lift_parse (fun c => {| Tools.embed_content := c |}) (string_field "content" input);
     Tools.InfillInputSchema_parse := fun _ =>
       Throw (ErrorObject "ZodError" "input_prefix: Required");
     Tools.RerankInputSchema_parse := fun _ =>
       Throw (ErrorObject "ZodError" "query: Required");
     Tools.LoadModelInputSchema_parse := fun input =>
       lift_parse (fun m => {| Tools.load_model := m |}) (string_field "model" input);
     Tools.UnloadModelInputSchema_parse := fun input =>
       lift_parse (fun m => {| Tools.unload_model := m |}) (string_field "model" input);
     Tools.LoraSetInputSchema_parse := fun _ =>
       Throw (ErrorObject "ZodError" "adapters: Required") |}.

Definition parsed_input (m : string) : Process.StartInput :=
  {| Process.model := m;
     Process.port := Some 8080%float;
     Process.ctx_size := Some 2048%float;
     Process.n_gpu_layers := Some (-1)%float;
     Process.threads := None |}.

End MoreSamples.

(** * Theorems *)

(** ** Strings *)

Module JsFacts.

Lemma append_nil_r (a : string) : a ++ "" = a.
Proof. induction a as [| c a IH]; cbn; [| rewrite IH]; reflexivity. Qed.

Lemma append_assoc (a b c : string) : (a ++ b) ++ c = a ++ (b ++ c).
Proof. induction a as [| x a IH]; cbn; [| rewrite IH]; reflexivity. Qed.

Lemma contains_middle (before s after : string) :
  contains (before ++ s ++ after) s.
Proof. exists before, after. reflexivity. Qed.

Lemma contains_end (before s : string) : contains (before ++ s) s.
Proof. exists before, "". rewrite append_nil_r. reflexivity. Qed.

End JsFacts.

(** ** The client *)

Module ClientFacts.
Import Client ClientSpec JsFacts.

Section Transport.

Context {host : Host}.
Variable config : Config.Config.

Lemma fetchJson_effects (path : string) (options : option RequestInit) :
  fst (fetchJson config path options) =
  [SetTimeout (Config.timeout config);
   Fetch (Config.serverUrl config ++ path) (sent options);
   ClearTimeout].
Proof.
  unfold fetchJson, fetch, finally, bind, emit, ret, throw, settle. cbn.
  fold (sent options).
  destruct (fetch_outcome (Config.serverUrl config ++ path) (sent options)) as [r | e];
    cbn; [destruct (ok r); cbn |]; reflexivity.
Qed.

Lemma fetchJson_settles (path : string) (options : option RequestInit) :
  snd (fetchJson config path options) =
  match fetch_outcome (Config.serverUrl config ++ path) (sent options) with
  | Resolves r =>
      if ok r then json r
      else Throw (Error ("HTTP " ++ String_of_Z (status r) ++ ": " ++ statusText r))
  | Rejects e => Throw e
  end.
Proof.
  unfold fetchJson, fetch, finally, bind, emit, ret, throw, settle. cbn.
  fold (sent options).
  destruct (fetch_outcome (Config.serverUrl config ++ path) (sent options)) as [r | e];
    cbn; [destruct (ok r); cbn |]; reflexivity.
Qed.

Lemma fetchText_effects (path : string) :
  fst (fetchText config path) =
  [SetTimeout (Config.timeout config);
   Fetch (Config.serverUrl config ++ path) read_text;
   ClearTimeout].
Proof.
  unfold fetchText, fetch, finally, bind, emit, ret, throw, settle. cbn.
  fold read_text.
  destruct (fetch_outcome (Config.serverUrl config ++ path) read_text) as [r | e];
    cbn; [destruct (ok r); cbn |]; reflexivity.
Qed.

Lemma fetchText_settles (path : string) :
  snd (fetchText config path) =
  match fetch_outcome (Config.serverUrl config ++ path) read_text with
  | Resolves r =>
      if ok r then text r
      else Throw (Error ("HTTP " ++ String_of_Z (status r) ++ ": " ++ statusText r))
  | Rejects e => Throw e
  end.
Proof.
  unfold fetchText, fetch, finally, bind, emit, ret, throw, settle. cbn.
  fold read_text.
  destruct (fetch_outcome (Config.serverUrl config ++ path) read_text) as [r | e];
    cbn; [destruct (ok r); cbn |]; reflexivity.
Qed.

Lemma sent_post (b : string) : sent (post b) = posted b.
Proof. reflexivity. Qed.

Lemma sent_none : sent None = read_json.
Proof. reflexivity. Qed.

(** A method that awaits [fetchJson] and returns nothing performs the same
    effects and fails the same way. *)
Lemma discard_effects (m : IO JsValue) :
  fst (m ;; ret tt) = fst m.
Proof.
  destruct m as [t [v | e]]; cbn; [rewrite app_nil_r |]; reflexivity.
Qed.

Lemma discard_settles (m : IO JsValue) :
  snd (m ;; ret tt) =
  match snd m with
  | Normal _ => Normal tt
  | Throw e => Throw e
  end.
Proof. destruct m as [t [v | e]]; reflexivity. Qed.

(** C5.  [complete(prompt)] without options performs exactly one transport
    call, a POST to [/completion], and the value serialised into its body is
    the object [{prompt, n_predict: 256, temperature: 0.7, top_p: 0.9,
    top_k: 40, stop: undefined, seed: undefined}]. *)
Theorem complete_default_request (prompt : string) :
  transport_calls (fst (complete (createClient config) prompt None)) =
  [(Config.serverUrl config ++ "/completion",
    {| method := Some "POST";
       body := Some (JSON_stringify (JObject [
                 ("prompt", JString prompt);
                 ("n_predict", JNumber 256%float);
                 ("temperature", JNumber 0.7%float);
                 ("top_p", JNumber 0.9%float);
                 ("top_k", JNumber 40%float);
                 ("stop", JUndefined);
                 ("seed", JUndefined)]));
       signal := true;
       headers := Some [("Content-Type", "application/json")] |})].
Proof.
  cbn [complete createClient]. rewrite fetchJson_effects. reflexivity.
Qed.

(** C6.  A temperature the caller supplies is the temperature in the
    request body of [complete], [chat] and [infill], whatever its value:
    the default 0.7 is not used and the value is not changed. *)
Theorem supplied_temperature_is_sent (t : number) :
  (forall prompt o, temperature o = Some t ->
     transport_calls (fst (complete (createClient config) prompt (Some o))) =
     [(Config.serverUrl config ++ "/completion",
       posted (JSON_stringify (JObject [
         ("prompt", JString prompt);
         ("n_predict", JNumber (max_tokens o ?? 256%float));
         ("temperature", JNumber t);
         ("top_p", JNumber (top_p o ?? 0.9%float));
         ("top_k", JNumber (top_k o ?? 40%float));
         ("stop", js_optional js_strings (stop o));
         ("seed", js_optional JNumber (seed o))])))])
  /\
  (forall messages o, chat_temperature o = Some t ->
     transport_calls (fst (chat (createClient config) messages (Some o))) =
     [(Config.serverUrl config ++ "/v1/chat/completions",
       posted (JSON_stringify (JObject [
         ("messages", js_messages messages);
         ("max_tokens", JNumber (chat_max_tokens o ?? 256%float));
         ("temperature", JNumber t);
         ("top_p", JNumber (chat_top_p o ?? 0.9%float));
         ("stop", js_optional js_strings (chat_stop o));
         ("seed", js_optional JNumber (chat_seed o))])))])
  /\
  (forall prefix suffix o, infill_temperature o = Some t ->
     transport_calls (fst (infill (createClient config) prefix suffix (Some o))) =
     [(Config.serverUrl config ++ "/infill",
       posted (JSON_stringify (JObject [
         ("input_prefix", JString prefix);
         ("input_suffix", JString suffix);
         ("n_predict", JNumber (infill_max_tokens o ?? 256%float));
         ("temperature", JNumber t);
         ("stop", js_optional js_strings (infill_stop o))])))]).
Proof.
  repeat split; intros;
    cbn [complete chat infill createClient];
    rewrite fetchJson_effects, sent_post; cbn [transport_calls opt_chain];
    rewrite H; reflexivity.
Qed.

Lemma outside_2xx (r : Response) :
  status r < 200 \/ 299 < status r -> ok r = false.
Proof.
  unfold ok. intros [H | H].
  - apply andb_false_iff. left. apply Z.leb_gt. exact H.
  - apply andb_false_iff. right. apply Z.leb_gt. exact H.
Qed.

Lemma inside_2xx (r : Response) :
  200 <= status r <= 299 -> ok r = true.
Proof.
  unfold ok. intros [H1 H2].
  apply andb_true_iff. split; apply Z.leb_le; assumption.
Qed.

Lemma http_message_contains (code : Z) (reason : string) :
  contains ("HTTP " ++ String_of_Z code ++ ": " ++ reason) (String_of_Z code)
  /\ contains ("HTTP " ++ String_of_Z code ++ ": " ++ reason) reason.
Proof.
  split.
  - apply contains_middle.
  - rewrite <- !append_assoc. apply contains_end.
Qed.

(** Every method makes exactly one transport call. *)
Lemma one_transport_call (call : Call) :
  exists url init,
    transport_calls (fst (invoke (createClient config) call)) = [(url, init)].
Proof.
  destruct call as [| [s |] | | | | | | | | | | | | | | |];
    cbn [invoke replying fst createClient health props models slots metrics
         tokenize detokenize applyTemplate complete chat embed infill rerank
         loadModel unloadModel loraList loraSet];
    rewrite ?discard_effects, ?fetchJson_effects, ?fetchText_effects;
    eexists; eexists; reflexivity.
Qed.

(** C8.  When the server's response has a status outside 200-299, every
    client method fails with [Error("HTTP <status>: <statusText>")], whose
    message holds the status code and the status text; the method made its
    one transport call and hands the failure on as it is. *)
Theorem non_2xx_is_http_error (call : Call) (r : Response) :
  answers_with (fst (invoke (createClient config) call)) r ->
  status r < 200 \/ 299 < status r ->
  exists message,
    snd (invoke (createClient config) call) = Throw (Error message)
    /\ message = "HTTP " ++ String_of_Z (status r) ++ ": " ++ statusText r
    /\ contains message (String_of_Z (status r))
    /\ contains message (statusText r)
    /\ length (transport_calls (fst (invoke (createClient config) call))) = 1%nat.
Proof.
  intros Hserver Hstatus.
  exists ("HTTP " ++ String_of_Z (status r) ++ ": " ++ statusText r).
  pose proof (outside_2xx r Hstatus) as Hok.
  destruct (http_message_contains (status r) (statusText r)) as [Hc1 Hc2].
  destruct (one_transport_call call) as [url [init Hone]].
  repeat split; try assumption; try (rewrite Hone; reflexivity).
  unfold answers_with in Hserver.
  revert Hserver.
  destruct call as [| [s |] | | | | | | | | | | | | | | |];
    cbn [invoke replying fst snd createClient health props models slots metrics
         tokenize detokenize applyTemplate complete chat embed infill rerank
         loadModel unloadModel loraList loraSet];
    rewrite ?discard_effects, ?discard_settles,
            ?fetchJson_effects, ?fetchJson_settles,
            ?fetchText_effects, ?fetchText_settles;
    cbn [transport_calls]; intro Hserver;
    rewrite (Hserver _ _ (or_introl eq_refl)), Hok; reflexivity.
Qed.

(** Where [loadModel(model)] and [unloadModel(model)] do succeed: they
    post [{model}] in one transport call and, when the server answers with
    a status in 200-299 and a body that [json()] parses, resolve with no
    value: the parsed body is dropped. *)
Theorem loadModel_resolves_on_json_success (model : string) (r : Response) (v : JsValue) :
  200 <= status r <= 299 ->
  json r = Normal v ->
  (answers_with (fst (loadModel (createClient config) model)) r ->
   loadModel (createClient config) model =
   ([SetTimeout (Config.timeout config);
     Fetch (Config.serverUrl config ++ "/models/load")
           (posted (JSON_stringify (JObject [("model", JString model)])));
     ClearTimeout],
    Normal tt))
  /\
  (answers_with (fst (unloadModel (createClient config) model)) r ->
   unloadModel (createClient config) model =
   ([SetTimeout (Config.timeout config);
     Fetch (Config.serverUrl config ++ "/models/unload")
           (posted (JSON_stringify (JObject [("model", JString model)])));
     ClearTimeout],
    Normal tt)).
Proof.
  intros Hstatus Hjson.
  pose proof (inside_2xx r Hstatus) as Hok.
  split; unfold answers_with;
    cbn [loadModel unloadModel createClient];
    rewrite discard_effects, fetchJson_effects, sent_post;
    cbn [transport_calls]; intro Hserver;
    match goal with
    | |- ?m = _ => rewrite (surjective_pairing m)
    end;
    rewrite discard_effects, discard_settles, fetchJson_effects, fetchJson_settles,
            sent_post;
    rewrite (Hserver _ _ (or_introl eq_refl)), Hok, Hjson; reflexivity.
Qed.

End Transport.

(** C5 on a concrete prompt. *)
Example complete_hello :
  transport_calls
    (fst (complete (createClient (host := Samples.constant_server Samples.success_body)
                                 Samples.sample_config) "hello" None)) =
  [("http://localhost:8080/completion",
    posted (Samples.sample_stringify (JObject [
      ("prompt", JString "hello");
      ("n_predict", JNumber 256%float);
      ("temperature", JNumber 0.7%float);
      ("top_p", JNumber 0.9%float);
      ("top_k", JNumber 40%float);
      ("stop", JUndefined);
      ("seed", JUndefined)])))].
Proof. reflexivity. Qed.

(** C6 at the temperature 0, which [??] does not replace. *)
Lemma supplied_temperature_is_sent_witness :
  temperature Samples.cold = Some 0%float
  /\ transport_calls
       (fst (complete (createClient (host := Samples.constant_server Samples.success_body)
                                    Samples.sample_config) "hello" (Some Samples.cold))) =
     [("http://localhost:8080/completion",
       posted (Samples.sample_stringify (JObject [
         ("prompt", JString "hello");
         ("n_predict", JNumber 256%float);
         ("temperature", JNumber 0%float);
         ("top_p", JNumber 0.9%float);
         ("top_k", JNumber 40%float);
         ("stop", JUndefined);
         ("seed", JUndefined)])))].
Proof.
  split; [reflexivity |].
  exact (proj1 (@supplied_temperature_is_sent
                  (Samples.constant_server Samples.success_body)
                  Samples.sample_config 0%float)
               "hello" Samples.cold eq_refl).
Defined.

(** C8 on a 500 answer to [metrics()]. *)
Lemma non_2xx_is_http_error_witness :
  exists message,
    snd (invoke (createClient (host := Samples.constant_server Samples.internal_error)
                              Samples.sample_config) CallMetrics)
    = Throw (Error message)
    /\ message = "HTTP 500: Internal Server Error"
    /\ contains message "500"
    /\ contains message "Internal Server Error"
    /\ length (transport_calls
                 (fst (invoke (createClient
                                 (host := Samples.constant_server Samples.internal_error)
                                 Samples.sample_config) CallMetrics))) = 1%nat.
Proof.
  apply (@non_2xx_is_http_error (Samples.constant_server Samples.internal_error)
           Samples.sample_config CallMetrics Samples.internal_error).
  - intros url init _. reflexivity.
  - right. reflexivity.
Defined.

(** C9 fails on the code: [loadModel] and [unloadModel] have no use for a
    response body, yet they go through [fetchJson], which returns
    [response.json()].  On the answer the claim names, a status in 200-299
    without a body (here 204), [json()] rejects and so does the method,
    after posting [{model}]: a successful load is reported as a failure. *)
Lemma loadModel_rejects_without_body :
  ok Samples.no_content = true
  /\ loadModel (createClient (host := Samples.constant_server Samples.no_content)
                             Samples.sample_config) "model.gguf"
     = ([SetTimeout 30000;
         Fetch "http://localhost:8080/models/load"
               (posted (Samples.sample_stringify (JObject [("model", JString "model.gguf")])));
         ClearTimeout],
        Throw (ErrorObject "SyntaxError" "Unexpected end of JSON input"))
  /\ unloadModel (createClient (host := Samples.constant_server Samples.no_content)
                               Samples.sample_config) "model.gguf"
     = ([SetTimeout 30000;
         Fetch "http://localhost:8080/models/unload"
               (posted (Samples.sample_stringify (JObject [("model", JString "model.gguf")])));
         ClearTimeout],
        Throw (ErrorObject "SyntaxError" "Unexpected end of JSON input")).
Proof. split; [| split]; reflexivity. Qed.

(** [loadModel] on a 200 answer with a JSON body. *)
Lemma loadModel_resolves_on_json_success_witness :
  200 <= status Samples.success_body <= 299
  /\ loadModel (createClient (host := Samples.constant_server Samples.success_body)
                             Samples.sample_config) "model.gguf"
     = ([SetTimeout 30000;
         Fetch "http://localhost:8080/models/load"
               (posted (Samples.sample_stringify (JObject [("model", JString "model.gguf")])));
         ClearTimeout],
        Normal tt).
Proof.
  split; [cbn; lia |].
  apply (proj1 (@loadModel_resolves_on_json_success
                  (Samples.constant_server Samples.success_body)
                  Samples.sample_config "model.gguf" Samples.success_body
                  (JObject [("success", JBool true)])
                  ltac:(cbn; lia) eq_refl)).
  intros url init _. reflexivity.
Defined.

End ClientFacts.

(** ** The process tools *)

Module ProcessFacts.
Import Process ProcessSpec JsFacts.

(** *** The invariant, primitive by primitive *)

Lemma cleared_consistent : consistent createProcessState.
Proof. unfold consistent. cbn. tauto. Qed.

Lemma keeps_ret {A : Type} (a : A) : keeps (ret a).
Proof. intros w H. exact H. Qed.

Lemma keeps_throw {A : Type} (e : Exception) : keeps (@throw A e).
Proof. intros w H. exact H. Qed.

Lemma keeps_settle {A : Type} (c : Completion A) : keeps (settle c).
Proof. intros w H. exact H. Qed.

Lemma keeps_get_state : keeps get_state.
Proof. intros w H. exact H. Qed.

Lemma keeps_log (e : Event) : keeps (log e).
Proof. intros w H. exact H. Qed.

Lemma keeps_bind {A B : Type} (m : Proc A) (k : A -> Proc B) :
  keeps m -> (forall a, keeps (k a)) -> keeps (bind m k).
Proof.
  intros Hm Hk w H. unfold bind.
  specialize (Hm w H).
  destruct (m w) as [w' [a | e]]; cbn in *.
  - apply Hk. exact Hm.
  - exact Hm.
Qed.

Lemma keeps_try_catch {A : Type} (m : Proc A) (h : Exception -> Proc A) :
  keeps m -> (forall e, keeps (h e)) -> keeps (try_catch m h).
Proof.
  intros Hm Hh w H. unfold try_catch.
  specialize (Hm w H).
  destruct (m w) as [w' [a | e]]; cbn in *.
  - exact Hm.
  - apply Hh. exact Hm.
Qed.

(** The two assignments [state.process = a; state.pid = b] together set up
    a consistent state, whatever it was, when [a] and [b] are both given or
    both [null]. *)
Lemma keeps_assignments {B : Type} (a : option ChildProcess) (b : option Z)
      (k : unit -> Proc B) :
  (a <> None <-> b <> None) ->
  (forall u, keeps (k u)) ->
  keeps (set_process a ;; x <- set_pid b ;; k x).
Proof.
  intros Hab Hk w _. unfold bind, set_process, set_pid.
  apply Hk. cbn. exact Hab.
Qed.

Lemma keeps_exit_listener : keeps exit_listener.
Proof.
  intros w _. unfold exit_listener, bind, set_process, set_pid. cbn.
  exact cleared_consistent.
Qed.

Lemma child_exit_consistent (child : nat) (w : World) :
  consistent (state w) -> consistent (state (child_exit child w)).
Proof.
  intro H. unfold child_exit.
  destruct (existsb (Nat.eqb child) (listeners w)).
  - assert (K : keeps (log (Exited child) ;; exit_listener)).
    { apply keeps_bind; [apply keeps_log | intros _; apply keeps_exit_listener]. }
    apply K. exact H.
  - exact H.
Qed.

Lemma deliveries_consistent (children : list nat) :
  forall w, consistent (state w) ->
            consistent (state (fold_left (fun acc child => child_exit child acc) children w)).
Proof.
  induction children as [| c rest IH]; intros w H; cbn.
  - exact H.
  - apply IH. apply child_exit_consistent. exact H.
Qed.

Lemma keeps_await_point : keeps await_point.
Proof.
  intros w H. unfold await_point. cbn.
  apply deliveries_consistent. exact H.
Qed.

Lemma keeps_spawn (command : string) (args : list string) : keeps (spawn command args).
Proof. intros w H. exact H. Qed.

Lemma keeps_on_exit (child : ChildProcess) : keeps (on_exit child).
Proof. intros w H. exact H. Qed.

Lemma keeps_kill (child : ChildProcess) (sig : string) : keeps (kill child sig).
Proof. intros w H. exact H. Qed.

Lemma keeps_client_health : keeps client_health.
Proof.
  unfold client_health.
  apply keeps_bind; [apply keeps_log | intros _].
  apply keeps_bind; [apply keeps_await_point | intros _].
  intros w H. exact H.
Qed.

Lemma keeps_sleep (ms : Z) : keeps (sleep ms).
Proof.
  unfold sleep. apply keeps_bind; [apply keeps_log | intros _; apply keeps_await_point].
Qed.

Create HintDb keeps.
#[export] Hint Resolve keeps_ret keeps_throw keeps_settle keeps_get_state keeps_log
  keeps_spawn keeps_on_exit keeps_kill keeps_client_health keeps_sleep
  keeps_await_point keeps_exit_listener : keeps.

(** Walks through a computation built from the primitives. *)
Ltac keeps_step :=
  match goal with
  | |- keeps (bind (set_process _) _) => fail 1
  | |- keeps (bind _ _) => apply keeps_bind; [| intro]
  | |- keeps (try_catch _ _) => apply keeps_try_catch; [| intro]
  | |- keeps (if ?b then _ else _) => destruct b eqn:?
  | |- keeps (match ?x with Some _ => _ | None => _ end) => destruct x eqn:?
  | |- keeps _ => solve [auto with keeps]
  end.

Lemma keeps_attempt (delayMs : Z) : keeps (attempt delayMs).
Proof. unfold attempt. repeat keeps_step. Qed.

Lemma keeps_loop (remaining : nat) (delayMs : Z) :
  keeps (waitForHealth_loop remaining delayMs).
Proof.
  induction remaining as [| rest IH]; cbn [waitForHealth_loop].
  - apply keeps_ret.
  - apply keeps_bind; [apply keeps_attempt | intros [b |]];
      [apply keeps_ret | exact IH].
Qed.

Lemma keeps_waitForHealth (maxAttempts : nat) (delayMs : Z) :
  keeps (waitForHealth maxAttempts delayMs).
Proof. apply keeps_loop. Qed.

#[export] Hint Resolve keeps_waitForHealth : keeps.

Lemma truthy_pid (p : option Z) : falsy p = false -> p <> None.
Proof. destruct p; [discriminate | discriminate]. Qed.

(** *** What the polling loop leaves untouched *)

Lemma child_exit_future (child : nat) (w : World) :
  future (child_exit child w) = future w.
Proof.
  unfold child_exit. destruct (existsb (Nat.eqb child) (listeners w)); reflexivity.
Qed.

Lemma deliveries_future (children : list nat) :
  forall w, future (fold_left (fun acc child => child_exit child acc) children w) = future w.
Proof.
  induction children as [| c rest IH]; intro w; cbn.
  - reflexivity.
  - rewrite IH. apply child_exit_future.
Qed.

Lemma await_point_run (w : World) :
  exists w',
    await_point w = (w', Normal tt)
    /\ healths (future w') = healths (future w)
    /\ kills (future w') = kills (future w).
Proof.
  eexists. split; [reflexivity |].
  cbn. rewrite deliveries_future. split; reflexivity.
Qed.

Lemma client_health_run (w : World) :
  exists w',
    client_health w = (w', shead (healths (future w)))
    /\ healths (future w') = stail (healths (future w))
    /\ kills (future w') = kills (future w).
Proof.
  unfold client_health, bind, log.
  match goal with
  | |- context [await_point ?x] =>
      destruct (await_point_run x) as [w1 [E [Hh Hk]]]; rewrite E
  end.
  cbn in Hh, Hk. cbn. rewrite Hh, Hk.
  eexists. split; [reflexivity |]. split; reflexivity.
Qed.

Lemma sleep_run (ms : Z) (w : World) :
  exists w',
    sleep ms w = (w', Normal tt)
    /\ healths (future w') = healths (future w)
    /\ kills (future w') = kills (future w).
Proof.
  unfold sleep, bind, log.
  match goal with
  | |- context [await_point ?x] =>
      destruct (await_point_run x) as [w1 [E [Hh Hk]]]; rewrite E
  end.
  cbn in Hh, Hk.
  exists w1. split; [reflexivity |]. split; assumption.
Qed.

(** An attempt that does not report [ok] lets the loop go on: it has used
    one answer of [client.health] and no answer of [kill]. *)
Lemma attempt_not_ok (delayMs : Z) (w : World) :
  reports_ok (shead (healths (future w))) = false ->
  exists w',
    attempt delayMs w = (w', Normal None)
    /\ healths (future w') = stail (healths (future w))
    /\ kills (future w') = kills (future w).
Proof.
  intro Hno.
  unfold attempt, try_catch, bind.
  destruct (client_health_run w) as [w1 [E [Hh Hk]]]. rewrite E.
  destruct (sleep_run delayMs w1) as [w2 [Es [Hh2 Hk2]]].
  unfold reports_ok in Hno.
  destruct (shead (healths (future w))) as [v | e].
  - unfold settle. destruct (status_of v) as [st | e].
    + rewrite Hno.
      destruct (is_string st "loading_model").
      * rewrite Es. exists w2. split; [reflexivity |].
        split; congruence.
      * exists w1. split; [reflexivity |]. split; assumption.
    + rewrite Es. exists w2. split; [reflexivity |]. split; congruence.
  - rewrite Es. exists w2. split; [reflexivity |]. split; congruence.
Qed.


(** *** The events of the polling loop *)

Lemma health_calls_app (a b : list Event) :
  health_calls (a ++ b) = (health_calls a + health_calls b)%nat.
Proof.
  induction a as [| e a IH]; cbn; [reflexivity |].
  destruct e; cbn; rewrite IH; reflexivity.
Qed.

Lemma grows_refl (w : World) : grows 0 w w.
Proof. exists []. split; [symmetry; apply app_nil_r | reflexivity]. Qed.

Lemma grows_trans (n m : nat) (w1 w2 w3 : World) :
  grows n w1 w2 -> grows m w2 w3 -> grows (n + m) w1 w3.
Proof.
  intros [e1 [H1 C1]] [e2 [H2 C2]]. exists (e1 ++ e2)%list. split.
  - rewrite H2, H1. symmetry. apply app_assoc.
  - rewrite health_calls_app. congruence.
Qed.

Lemma child_exit_grows (child : nat) (w : World) : grows 0 w (child_exit child w).
Proof.
  unfold child_exit. destruct (existsb (Nat.eqb child) (listeners w)).
  - exists [Exited child]. split; reflexivity.
  - apply grows_refl.
Qed.

Lemma deliveries_grow (children : list nat) :
  forall w, grows 0 w (fold_left (fun acc child => child_exit child acc) children w).
Proof.
  induction children as [| c rest IH]; intro w; cbn.
  - apply grows_refl.
  - apply (grows_trans (child_exit_grows c w) (IH _)).
Qed.

Lemma await_point_grows (w : World) : grows 0 w (fst (await_point w)).
Proof.
  unfold await_point. cbn.
  match goal with |- grows _ _ (fold_left _ _ ?x) => apply (deliveries_grow _ x) end.
Qed.

Lemma log_grows (e : Event) (w : World) : grows (health_calls [e]) w (fst (log e w)).
Proof. exists [e]. split; reflexivity. Qed.

Lemma client_health_grows (w : World) : grows 1 w (fst (client_health w)).
Proof.
  unfold client_health, bind.
  pose proof (log_grows Health w) as H1.
  destruct (log Health w) as [w1 [u |]] eqn:E1; [| discriminate].
  pose proof (await_point_grows w1) as H2.
  destruct (await_point w1) as [w2 [u2 |]] eqn:E2; [| discriminate].
  cbn in *. apply (grows_trans H1 H2).
Qed.

Lemma sleep_grows (ms : Z) (w : World) :
  exists w', sleep ms w = (w', Normal tt) /\ grows 0 w w'.
Proof.
  unfold sleep, bind.
  pose proof (log_grows (Sleep ms) w) as H1.
  destruct (log (Sleep ms) w) as [w1 [u |]] eqn:E1; [| discriminate].
  exists (fst (await_point w1)). split; [reflexivity |].
  apply (grows_trans H1 (await_point_grows w1)).
Qed.

Lemma attempt_grows (delayMs : Z) (w : World) : grows 1 w (fst (attempt delayMs w)).
Proof.
  unfold attempt, try_catch, bind.
  pose proof (client_health_grows w) as H1.
  destruct (client_health w) as [w1 [v | e]]; cbn [fst] in H1.
  all: destruct (sleep_grows delayMs w1) as [w2 [Es H2]].
  all: pose proof (grows_trans H1 H2) as H12.
  - unfold settle. destruct (status_of v) as [st | e].
    + destruct (is_string st "ok"); [exact H1 |].
      destruct (is_string st "loading_model"); [| exact H1].
      rewrite Es. exact H12.
    + rewrite Es. exact H12.
  - rewrite Es. exact H12.
Qed.

Lemma health_calls_bounded (remaining : nat) (delayMs : Z) :
  forall w, exists n,
    (n <= remaining)%nat /\ grows n w (fst (waitForHealth_loop remaining delayMs w)).
Proof.
  induction remaining as [| rest IH]; intro w; cbn [waitForHealth_loop].
  - exists O. split; [apply Nat.le_refl | apply grows_refl].
  - unfold bind. pose proof (attempt_grows delayMs w) as H1.
    destruct (attempt delayMs w) as [w1 [[b |] | e]].
    + exists 1%nat. split; [apply (proj1 (Nat.succ_le_mono _ _)), Nat.le_0_l | exact H1].
    + destruct (IH w1) as [n [Hn H2]]. exists (1 + n)%nat. split.
      * apply (proj1 (Nat.succ_le_mono _ _)). exact Hn.
      * exact (grows_trans H1 H2).
    + exists 1%nat. split; [apply (proj1 (Nat.succ_le_mono _ _)), Nat.le_0_l | exact H1].
Qed.

(** The loop returns [true] only when one of its attempts reported [ok]. *)
Lemma loop_true_only_on_ok (remaining : nat) (delayMs : Z) :
  forall w w',
    waitForHealth_loop remaining delayMs w = (w', Normal true) ->
    exists i, (i < remaining)%nat /\ reports_ok (healths (future w) i) = true.
Proof.
  induction remaining as [| rest IH]; intros w w' Hrun; cbn [waitForHealth_loop] in Hrun.
  - discriminate.
  - destruct (reports_ok (shead (healths (future w)))) eqn:Hok.
    + exists O. split; [apply Nat.lt_0_succ | exact Hok].
    + destruct (attempt_not_ok delayMs w Hok) as [w1 [E [Hh _]]].
      unfold bind in Hrun. rewrite E in Hrun.
      destruct (IH w1 w' Hrun) as [i [Hi Hr]].
      exists (S i). split.
      * apply (proj1 (Nat.succ_lt_mono _ _)). exact Hi.
      * rewrite Hh in Hr. exact Hr.
Qed.

Section Tools.

Context {host : Host}.
Variable config : Config.Config.

Lemma keeps_start_handler (input : JsValue) : keeps (start_handler config input).
Proof.
  unfold start_handler.
  repeat keeps_step.
  all: try (apply keeps_assignments; [| intro]; repeat keeps_step).
  all: try (apply keeps_assignments; [tauto | intro]; repeat keeps_step).
  all: split; intros _; [apply truthy_pid; assumption | discriminate].
Qed.

Lemma keeps_stop_handler : keeps stop_handler.
Proof.
  unfold stop_handler.
  repeat keeps_step.
  all: apply keeps_assignments; [tauto | intro]; repeat keeps_step.
Qed.

Lemma run_consistent (ops : list Operation) :
  forall w, consistent (state w) -> consistent (state (run config ops w)).
Proof.
  unfold run. induction ops as [| op rest IH]; intros w H; cbn [fold_left].
  - exact H.
  - apply IH. destruct op as [input | | child]; cbn [perform].
    + apply keeps_start_handler. exact H.
    + apply keeps_stop_handler. exact H.
    + apply child_exit_consistent. exact H.
Qed.

(** C1.  When the process state holds a handle exactly when it holds a
    pid, it still does after [start], whatever the input, the answers of
    the outside and the exit events delivered meanwhile, and however the
    handler ends; after [stop]; after the child-exit notification; and so
    after any sequence of the three. *)
Theorem state_stays_consistent (w : World) :
  consistent (state w) ->
  (forall input, consistent (state (fst (start_handler config input w))))
  /\ consistent (state (fst (stop_handler w)))
  /\ (forall child, consistent (state (child_exit child w)))
  /\ (forall ops, consistent (state (run config ops w))).
Proof.
  intro H. repeat split.
  1, 2: apply keeps_start_handler; exact H.
  1, 2: apply keeps_stop_handler; exact H.
  1, 2: apply child_exit_consistent; exact H.
  1, 2: apply run_consistent; exact H.
Qed.

(** C4.  [start] on valid arguments while a handle and a pid are held
    fails with the message "Error: llama-server is already running with PID
    <pid>. Use llama_stop first."; the world is left as it was: no spawn, no
    other event, the same process state. *)
Theorem start_while_running (input : JsValue) (parsed : StartInput) (w : World)
        (c : ChildProcess) (p : Z) :
  StartInputSchema_parse input = Normal parsed ->
  process (state w) = Some c ->
  pid (state w) = Some p ->
  exists message,
    start_handler config input w = (w, Normal (error_result message))
    /\ contains message "already running"
    /\ contains message (String_of_Z p).
Proof.
  intros Hparse Hprocess Hpid.
  exists ("Error: llama-server is already running with PID "
            ++ String_of_Z p ++ ". Use llama_stop first.").
  split; [| split].
  - unfold start_handler, try_catch, bind, settle, get_state.
    rewrite Hparse, Hprocess, Hpid. reflexivity.
  - exists "Error: llama-server is ", (" with PID " ++ String_of_Z p ++ ". Use llama_stop first.").
    reflexivity.
  - change ("Error: llama-server is already running with PID "
              ++ String_of_Z p ++ ". Use llama_stop first.")
      with ("Error: llama-server is already running with PID "
              ++ (String_of_Z p ++ ". Use llama_stop first.")).
    apply contains_middle.
Qed.

(** C7.  [stop] while a handle and a pid are held sends SIGTERM to the
    handle.  When sending raises, the handler fails with the raised message
    and the process state is as before; when sending returns, the state is
    cleared and the descriptor carries the pid read before the clearing. *)
Theorem stop_signal_then_clear (w : World) (c : ChildProcess) (p : Z) :
  process (state w) = Some c ->
  pid (state w) = Some p ->
  trace (fst (stop_handler w)) = (trace w ++ [Kill (handle c) "SIGTERM"])%list
  /\ (forall e, shead (kills (future w)) = Throw e ->
        state (fst (stop_handler w)) = state w
        /\ snd (stop_handler w) = Normal (error_result ("Error: " ++ message_of e)))
  /\ (forall b, shead (kills (future w)) = Normal b ->
        state (fst (stop_handler w)) = createProcessState
        /\ snd (stop_handler w) =
           Normal (text_result (JSON_stringify (JObject [
                     ("status", JString "stopped");
                     ("pid", JNumber (number_of_Z p))]) 2))).
Proof.
  intros Hprocess Hpid.
  unfold stop_handler, try_catch, bind, get_state, kill, log, with_future.
  rewrite Hprocess, Hpid. cbn.
  split; [| split].
  - destruct (shead (kills (future w))); reflexivity.
  - intros e He. rewrite He. split; reflexivity.
  - intros b Hb. rewrite Hb. split; reflexivity.
Qed.



End Tools.

#[local] Existing Instance Samples.process_host.

(** C2 fails on the code: after an attempt that resolves with a status
    other than ["ok"] and ["loading_model"], here ["error"], the loop calls
    [client.health] again without a pause.  With [error] then [ok] the two
    calls follow each other directly; with [error] every time the 30 calls
    are made without a single pause.  ([health_calls_bounded] and
    [loop_true_only_on_ok] are the parts of the claim that hold.) *)
Theorem error_status_is_polled_without_pause :
  snd (waitForHealth default_maxAttempts default_delayMs
                     (Samples.fresh Samples.error_then_ok))
  = Normal true
  /\ trace (fst (waitForHealth default_maxAttempts default_delayMs
                               (Samples.fresh Samples.error_then_ok)))
     = [Health; Health]
  /\ snd (waitForHealth default_maxAttempts default_delayMs
                        (Samples.fresh Samples.always_error))
     = Normal false
  /\ trace (fst (waitForHealth default_maxAttempts default_delayMs
                               (Samples.fresh Samples.always_error)))
     = repeat Health 30.
Proof. repeat split. Qed.

(** Where the loop does pause: a refused connection is followed by the
    one-second sleep before the next call. *)
Example refused_is_polled_after_pause :
  trace (fst (waitForHealth 2 default_delayMs
                            (Samples.fresh (Samples.never_up (Normal true)))))
  = [Health; Sleep 1000; Health; Sleep 1000].
Proof. reflexivity. Qed.

(** C1 on a run of the four operations from the initial state. *)
Lemma state_stays_consistent_witness :
  consistent (state (Samples.fresh Samples.two_servers))
  /\ consistent
       (state (run Samples.sample_config
                   [Start (Samples.start_input "/a.gguf"); Stop;
                    Start (Samples.start_input "/b.gguf"); ChildExit 1]
                   (Samples.fresh Samples.two_servers))).
Proof.
  split; [exact cleared_consistent |].
  exact (proj2 (proj2 (proj2
           (@state_stays_consistent Samples.process_host Samples.sample_config
              (Samples.fresh Samples.two_servers) cleared_consistent))) _).
Defined.



(** C4 with pid 12345. *)
Lemma start_while_running_witness :
  exists message,
    start_handler Samples.sample_config (Samples.start_input "/m.gguf")
      (Samples.running (Samples.child 7 12345) 12345 Samples.two_servers)
    = (Samples.running (Samples.child 7 12345) 12345 Samples.two_servers,
       Normal (error_result message))
    /\ contains message "already running"
    /\ contains message "12345".
Proof.
  apply (@start_while_running Samples.process_host Samples.sample_config
           (Samples.start_input "/m.gguf")
           {| model := "/m.gguf"; port := Some 8080%float;
              ctx_size := Some 2048%float; n_gpu_layers := Some (-1)%float;
              threads := None |}
           (Samples.running (Samples.child 7 12345) 12345 Samples.two_servers)
           (Samples.child 7 12345) 12345); reflexivity.
Defined.

(** C7 when [kill] raises. *)
Lemma stop_signal_then_clear_witness :
  state (fst (stop_handler
                (Samples.running (Samples.child 7 12345) 12345
                   (Samples.never_up (Throw (Error "ESRCH: process already exited"))))))
  = {| process := Some (Samples.child 7 12345); pid := Some 12345 |}
  /\ snd (stop_handler
            (Samples.running (Samples.child 7 12345) 12345
               (Samples.never_up (Throw (Error "ESRCH: process already exited")))))
     = Normal (error_result "Error: ESRCH: process already exited").
Proof.
  exact (proj1 (proj2
           (@stop_signal_then_clear Samples.process_host
              (Samples.running (Samples.child 7 12345) 12345
                 (Samples.never_up (Throw (Error "ESRCH: process already exited"))))
              (Samples.child 7 12345) 12345 eq_refl eq_refl))
           (Error "ESRCH: process already exited") eq_refl).
Defined.

(** C10.  The listener [start] registers clears the process state whenever
    the exit event of a child that carries it is delivered, whatever the
    state holds.  In the run start A, stop, start B the state holds B's
    handle and pid, nothing was sent to B and B has not exited; the exit
    event of A, delivered then, leaves the state Stopped. *)
Theorem late_exit_clears_running_state :
  (forall w child, In child (listeners w) ->
                   state (child_exit child w) = createProcessState)
  /\ state (run Samples.sample_config
                [Start (Samples.start_input "/a.gguf"); Stop;
                 Start (Samples.start_input "/b.gguf")]
                (Samples.fresh Samples.two_servers))
     = {| process := Some (Samples.child 2 4002); pid := Some 4002 |}
  /\ trace (run Samples.sample_config
                [Start (Samples.start_input "/a.gguf"); Stop;
                 Start (Samples.start_input "/b.gguf"); ChildExit 1]
                (Samples.fresh Samples.two_servers))
     = [Spawn "llama-server" ["-m"; "/a.gguf"; "--port"; "8080"; "-c"; "2048"; "-ngl"; "-1"];
        OnExit 1; Health;
        Kill 1 "SIGTERM";
        Spawn "llama-server" ["-m"; "/b.gguf"; "--port"; "8080"; "-c"; "2048"; "-ngl"; "-1"];
        OnExit 2; Health;
        Exited 1]
  /\ state (run Samples.sample_config
                [Start (Samples.start_input "/a.gguf"); Stop;
                 Start (Samples.start_input "/b.gguf"); ChildExit 1]
                (Samples.fresh Samples.two_servers))
     = createProcessState.
Proof.
  split; [| repeat split].
  intros w child Hin. unfold child_exit.
  assert (E : existsb (Nat.eqb child) (listeners w) = true).
  { apply existsb_exists. exists child. split; [exact Hin | apply Nat.eqb_refl]. }
  rewrite E. reflexivity.
Qed.

(** C10's first part on a state that holds process 2 while process 1 still
    carries its listener. *)
Lemma late_exit_clears_running_state_witness :
  In 1%nat (listeners {| state := {| process := Some (Samples.child 2 4002); pid := Some 4002 |};
                         listeners := [2%nat; 1%nat];
                         trace := [];
                         future := Samples.two_servers |})
  /\ state (child_exit 1 {| state := {| process := Some (Samples.child 2 4002);
                                        pid := Some 4002 |};
                            listeners := [2%nat; 1%nat];
                            trace := [];
                            future := Samples.two_servers |})
     = createProcessState.
Proof.
  split; [right; left; reflexivity |].
  apply (proj1 late_exit_clears_running_state).
  right. left. reflexivity.
Defined.

End ProcessFacts.

(** ** More on the process tools *)

Module ProcessMore.
Import Process ProcessSpec PollingSpec JsFacts ProcessFacts.

(** *** Polling, whatever exits are delivered *)

Lemma polled_refl (w : World) : polled w w.
Proof.
  exists []. repeat split. symmetry. apply app_nil_r.
Qed.

Lemma polled_trans (w1 w2 w3 : World) : polled w1 w2 -> polled w2 w3 -> polled w1 w3.
Proof.
  intros [e1 [T1 [P1 [S1 [K1 L1]]]]] [e2 [T2 [P2 [S2 [K2 L2]]]]].
  exists (e1 ++ e2)%list. repeat split.
  - rewrite T2, T1. symmetry. apply app_assoc.
  - rewrite forallb_app, P1, P2. reflexivity.
  - congruence.
  - congruence.
  - congruence.
Qed.

Lemma child_exit_polled (child : nat) (w : World) : polled w (child_exit child w).
Proof.
  unfold child_exit. destruct (existsb (Nat.eqb child) (listeners w)).
  - exists [Exited child]. repeat split.
  - apply polled_refl.
Qed.

Lemma deliveries_polled (children : list nat) :
  forall w, polled w (fold_left (fun acc child => child_exit child acc) children w).
Proof.
  induction children as [| c rest IH]; intro w; cbn.
  - apply polled_refl.
  - exact (polled_trans (child_exit_polled c w) (IH _)).
Qed.

Lemma await_point_polled (w : World) :
  exists w', await_point w = (w', Normal tt) /\ polled w w'.
Proof.
  eexists. split; [reflexivity |].
  unfold await_point.
  match goal with
  | |- polled _ (fold_left _ ?l ?x) =>
      apply (@polled_trans w x); [| apply (deliveries_polled l x)]
  end.
  exists []. repeat split. symmetry. apply app_nil_r.
Qed.

Lemma client_health_polled (w : World) :
  exists w', client_health w = (w', shead (healths (future w)))
             /\ polled w w'
             /\ healths (future w') = stail (healths (future w)).
Proof.
  destruct (client_health_run w) as [w1 [E [Hh Hk]]].
  exists w1. split; [exact E |]. split; [| exact Hh].
  revert E. unfold client_health, bind, log.
  match goal with
  | |- context [await_point ?x] =>
      destruct (await_point_polled x) as [w2 [E2 P2]]; rewrite E2
  end.
  cbn. intro E. injection E as E _. subst w1.
  match goal with
  | |- polled _ (with_future _ ?y) => apply (@polled_trans w y)
  end.
  - refine (polled_trans _ P2). exists [Health]. repeat split.
  - exists []. repeat split. symmetry. apply app_nil_r.
Qed.

Lemma sleep_polled (ms : Z) (w : World) :
  exists w', sleep ms w = (w', Normal tt) /\ polled w w'
             /\ healths (future w') = healths (future w).
Proof.
  destruct (sleep_run ms w) as [w1 [E [Hh Hk]]].
  exists w1. split; [exact E |]. split; [| exact Hh].
  revert E. unfold sleep, bind, log.
  match goal with
  | |- context [await_point ?x] =>
      destruct (await_point_polled x) as [w2 [E2 P2]]; rewrite E2
  end.
  intro E. injection E as E. subst w1.
  refine (polled_trans _ P2). exists [Sleep ms]. repeat split.
Qed.

(** An attempt settles: with [Some true] when the call reports [ok], with
    [None] otherwise; it uses one answer of [client.health]. *)
Lemma attempt_polled (delayMs : Z) (w : World) :
  exists w',
    attempt delayMs w
    = (w', Normal (if reports_ok (shead (healths (future w))) then Some true else None))
    /\ polled w w'
    /\ healths (future w') = stail (healths (future w)).
Proof.
  unfold attempt, try_catch, bind, reports_ok.
  destruct (client_health_polled w) as [w1 [E [P1 H1]]]. rewrite E.
  destruct (sleep_polled delayMs w1) as [w2 [Es [P2 H2]]].
  assert (P12 : polled w w2) by exact (polled_trans P1 P2).
  assert (H12 : healths (future w2) = stail (healths (future w))) by congruence.
  destruct (shead (healths (future w))) as [v | e].
  - unfold settle. destruct (status_of v) as [st | e].
    + destruct (is_string st "ok").
      * exists w1. repeat split; assumption.
      * destruct (is_string st "loading_model").
        -- rewrite Es. exists w2. repeat split; assumption.
        -- exists w1. repeat split; assumption.
    + rewrite Es. exists w2. repeat split; assumption.
  - rewrite Es. exists w2. repeat split; assumption.
Qed.

Lemma loop_polled (remaining : nat) (delayMs : Z) :
  forall w,
    exists w' b,
      waitForHealth_loop remaining delayMs w = (w', Normal b)
      /\ polled w w'
      /\ (b = true <->
          exists i, (i < remaining)%nat /\ reports_ok (healths (future w) i) = true).
Proof.
  induction remaining as [| rest IH]; intro w; cbn [waitForHealth_loop].
  - exists w, false. split; [reflexivity |]. split; [apply polled_refl |].
    split; [discriminate |]. intros [i [Hi _]]. inversion Hi.
  - destruct (attempt_polled delayMs w) as [w1 [E [P1 H1]]].
    unfold bind. rewrite E.
    destruct (reports_ok (shead (healths (future w)))) eqn:Hok.
    + exists w1, true. split; [reflexivity |]. split; [exact P1 |].
      split; [| reflexivity]. intros _. exists O. split; [apply Nat.lt_0_succ | exact Hok].
    + destruct (IH w1) as [w2 [b [E2 [P2 Hb]]]].
      exists w2, b. split; [exact E2 |]. split; [exact (polled_trans P1 P2) |].
      rewrite Hb, H1. split.
      * intros [i [Hi Hr]]. exists (S i). split; [| exact Hr].
        apply (proj1 (Nat.succ_lt_mono _ _)). exact Hi.
      * intros [i [Hi Hr]]. destruct i as [| j].
        -- unfold shead in Hok. congruence.
        -- exists j. split; [| exact Hr].
           apply (proj2 (Nat.succ_lt_mono _ _)). exact Hi.
Qed.

(** *** Polling while no child exits *)

Lemma pauses_not_ok (c : Completion JsValue) : pauses c = true -> reports_ok c = false.
Proof.
  unfold pauses, reports_ok. destruct c as [v | e]; [| reflexivity].
  destruct (status_of v) as [st | e]; [| reflexivity].
  destruct (is_string st "ok"); [discriminate | reflexivity].
Qed.

Lemma ok_not_pauses (c : Completion JsValue) : reports_ok c = true -> pauses c = false.
Proof.
  intro H. destruct (pauses c) eqn:P; [| reflexivity].
  rewrite (pauses_not_ok c P) in H. discriminate.
Qed.

Lemma quiet_trans (e1 e2 : list Event) (n1 n2 : nat) (w1 w2 w3 : World) :
  quiet e1 n1 w1 w2 -> quiet e2 n2 w2 w3 -> quiet (e1 ++ e2) (n1 + n2) w1 w3.
Proof.
  intros [S1 [L1 [T1 [H1 [K1 [P1 C1]]]]]] [S2 [L2 [T2 [H2 [K2 [P2 C2]]]]]].
  split; [congruence |]. split; [congruence |].
  split; [rewrite T2, T1; symmetry; apply app_assoc |].
  split; [intro i; rewrite H2, H1, Nat.add_assoc; reflexivity |].
  split; [congruence |]. split; [congruence | exact C2].
Qed.

Lemma log_calm (e : Event) (w : World) :
  calm w -> exists w', log e w = (w', Normal tt) /\ quiet [e] 0 w w'.
Proof.
  intro C. eexists. split; [reflexivity |]. repeat split. exact C.
Qed.

Lemma await_point_calm (w : World) :
  calm w -> exists w', await_point w = (w', Normal tt) /\ quiet [] 0 w w'.
Proof.
  intro C. unfold await_point, shead. rewrite (C O). cbn.
  eexists. split; [reflexivity |]. repeat split; cbn.
  - symmetry. apply app_nil_r.
  - intro i. apply (C (S i)).
Qed.

Lemma client_health_calm (w : World) :
  calm w ->
  exists w', client_health w = (w', shead (healths (future w)))
             /\ quiet [Health] 1 w w'.
Proof.
  intro C. unfold client_health, bind.
  destruct (log_calm Health C) as [w1 [E1 Q1]]. rewrite E1.
  pose proof Q1 as [_ [_ [_ [_ [_ [_ C1]]]]]].
  destruct (await_point_calm C1) as [w2 [E2 Q2]]. rewrite E2.
  pose proof (quiet_trans Q1 Q2) as Q12. cbn in Q12.
  destruct Q12 as [S2 [L2 [T2 [H2 [K2 [P2 C2]]]]]].
  eexists. split.
  - unfold shead. rewrite (H2 O). reflexivity.
  - split; [exact S2 |]. split; [exact L2 |]. split; [exact T2 |].
    split; [intro i; cbn; unfold stail; rewrite H2; reflexivity |].
    split; [exact K2 |]. split; [exact P2 | exact C2].
Qed.

Lemma sleep_calm (ms : Z) (w : World) :
  calm w -> exists w', sleep ms w = (w', Normal tt) /\ quiet [Sleep ms] 0 w w'.
Proof.
  intro C. unfold sleep, bind.
  destruct (log_calm (Sleep ms) C) as [w1 [E1 Q1]]. rewrite E1.
  destruct (await_point_calm (proj2 (proj2 (proj2 (proj2 (proj2 (proj2 Q1)))))))
    as [w2 [E2 Q2]].
  exists w2. split; [exact E2 |].
  exact (quiet_trans Q1 Q2).
Qed.

(** One attempt while no child exits: the call, then the pause if the
    attempt pauses, and nothing else. *)
Lemma attempt_calm (delayMs : Z) (w : World) :
  calm w ->
  exists w',
    attempt delayMs w
    = (w', Normal (if reports_ok (shead (healths (future w))) then Some true else None))
    /\ quiet (Health :: if pauses (shead (healths (future w)))
                        then [Sleep delayMs] else [])
             1 w w'.
Proof.
  intro C. unfold attempt, try_catch, bind, reports_ok, pauses.
  destruct (client_health_calm C) as [w1 [E Q1]]. rewrite E.
  destruct (sleep_calm delayMs (proj2 (proj2 (proj2 (proj2 (proj2 (proj2 Q1)))))))
    as [w2 [Es Q2]].
  pose proof (quiet_trans Q1 Q2) as Q12. cbn in Q12.
  destruct (shead (healths (future w))) as [v | e].
  - unfold settle. destruct (status_of v) as [st | e].
    + destruct (is_string st "ok").
      * exists w1. split; [reflexivity | exact Q1].
      * destruct (is_string st "loading_model").
        -- rewrite Es. exists w2. split; [reflexivity | exact Q12].
        -- exists w1. split; [reflexivity | exact Q1].
    + rewrite Es. exists w2. split; [reflexivity | exact Q12].
  - rewrite Es. exists w2. split; [reflexivity | exact Q12].
Qed.

Lemma first_ok_next (k : nat) (w w1 : World) :
  first_ok (S k) w ->
  (forall i, healths (future w1) i = healths (future w) (1 + i)%nat) ->
  first_ok k w1.
Proof.
  intros [Hno Hok] H1. split.
  - intros i Hi. rewrite H1. apply Hno. apply (proj1 (Nat.succ_lt_mono _ _)). exact Hi.
  - rewrite H1. exact Hok.
Qed.

(** When attempt [k] is the first to report [ok] and no child exits, the
    loop returns [true] after [k + 1] calls and leaves the process state
    and everything but the polling events alone. *)
Lemma loop_calm_first_ok (remaining : nat) (delayMs : Z) :
  forall k w,
    calm w -> first_ok k w -> (k < remaining)%nat ->
    exists w' evs,
      waitForHealth_loop remaining delayMs w = (w', Normal true)
      /\ quiet evs (S k) w w'
      /\ health_calls evs = S k
      /\ forallb polling_event evs = true.
Proof.
  induction remaining as [| rest IH]; intros k w C F Hk; [inversion Hk |].
  cbn [waitForHealth_loop]. unfold bind.
  destruct (attempt_calm delayMs C) as [w1 [E Q1]]. rewrite E.
  destruct k as [| j].
  - destruct F as [_ Hok]. unfold shead. rewrite Hok.
    unfold shead in Q1. rewrite (ok_not_pauses _ Hok) in Q1.
    exists w1, [Health]. repeat split; try apply Q1.
  - pose proof (proj1 F O (Nat.lt_0_succ j)) as Hno. unfold shead. rewrite Hno.
    pose proof Q1 as [_ [_ [_ [H1 [_ [_ C1]]]]]].
    destruct (IH j w1 C1 (@first_ok_next _ _ _ F H1) (proj2 (Nat.succ_lt_mono _ _) Hk))
      as [w2 [evs [E2 [Q2 [N2 P2]]]]].
    eexists w2, _. split; [exact E2 |]. split; [exact (quiet_trans Q1 Q2) |].
    split.
    + cbn. rewrite health_calls_app, N2.
      destruct (pauses (shead (healths (future w)))); reflexivity.
    + cbn. rewrite forallb_app, P2.
      destruct (pauses (shead (healths (future w)))); reflexivity.
Qed.

(** When every attempt pauses and no child exits, the loop is [remaining]
    times a call followed by the pause, the last attempt included. *)
Lemma loop_calm_all_pause (remaining : nat) (delayMs : Z) :
  forall w,
    calm w ->
    (forall i, (i < remaining)%nat -> pauses (healths (future w) i) = true) ->
    exists w',
      waitForHealth_loop remaining delayMs w = (w', Normal false)
      /\ quiet (concat (repeat [Health; Sleep delayMs] remaining)) remaining w w'.
Proof.
  induction remaining as [| rest IH]; intros w C Hp; cbn [waitForHealth_loop].
  - exists w. split; [reflexivity |]. repeat split; cbn.
    + symmetry. apply app_nil_r.
    + exact C.
  - unfold bind.
    destruct (attempt_calm delayMs C) as [w1 [E Q1]]. rewrite E.
    pose proof (Hp O (Nat.lt_0_succ rest)) as Hp0. fold (shead (healths (future w))) in Hp0.
    rewrite Hp0 in Q1. rewrite (pauses_not_ok _ Hp0).
    pose proof Q1 as [_ [_ [_ [H1 [_ [_ C1]]]]]].
    destruct (IH w1 C1) as [w2 [E2 Q2]].
    { intros i Hi. rewrite H1. apply Hp. apply (proj1 (Nat.succ_lt_mono _ _)). exact Hi. }
    exists w2. split; [exact E2 |].
    exact (quiet_trans Q1 Q2).
Qed.

(** *** Exit events and the process state *)

Lemma child_exit_listeners (child : nat) (w : World) :
  listeners (child_exit child w) = listeners w.
Proof.
  unfold child_exit. destruct (existsb (Nat.eqb child) (listeners w)); reflexivity.
Qed.

Lemma child_exit_cleared (child : nat) (w : World) :
  state w = createProcessState -> state (child_exit child w) = createProcessState.
Proof.
  intro H. unfold child_exit.
  destruct (existsb (Nat.eqb child) (listeners w)); [reflexivity | exact H].
Qed.

Lemma child_exit_clears (child : nat) (w : World) :
  In child (listeners w) -> state (child_exit child w) = createProcessState.
Proof.
  intro Hin. unfold child_exit.
  assert (E : existsb (Nat.eqb child) (listeners w) = true).
  { apply existsb_exists. exists child. split; [exact Hin | apply Nat.eqb_refl]. }
  rewrite E. reflexivity.
Qed.

Lemma deliveries_listeners (children : list nat) :
  forall w, listeners (fold_left (fun acc child => child_exit child acc) children w)
            = listeners w.
Proof.
  induction children as [| c rest IH]; intro w; cbn; [reflexivity |].
  rewrite IH. apply child_exit_listeners.
Qed.

Lemma deliveries_cleared (children : list nat) :
  forall w, state w = createProcessState ->
            state (fold_left (fun acc child => child_exit child acc) children w)
            = createProcessState.
Proof.
  induction children as [| c rest IH]; intros w H; cbn; [exact H |].
  apply IH. apply child_exit_cleared. exact H.
Qed.

(** Delivering the exit of a child that carries the listener leaves the
    process state cleared, whatever else is delivered with it. *)
Lemma deliveries_clear (children : list nat) (child : nat) :
  forall w, In child children -> In child (listeners w) ->
            state (fold_left (fun acc c => child_exit c acc) children w)
            = createProcessState.
Proof.
  induction children as [| c rest IH]; intros w Hin Hl; [inversion Hin |].
  cbn. destruct Hin as [-> | Hin].
  - apply deliveries_cleared. apply child_exit_clears. exact Hl.
  - apply IH; [exact Hin |]. rewrite child_exit_listeners. exact Hl.
Qed.

Section Runs.

Context {host : Host}.
Variable config : Config.Config.

(** [start] from a state that is not Running, once the child is spawned:
    the rest of the handler, by the outcome of the polling. *)
Lemma start_polls (input : JsValue) (parsed : StartInput) (w : World)
      (child : ChildProcess) :
  StartInputSchema_parse input = Normal parsed ->
  process (state w) = None \/ pid (state w) = None ->
  shead (spawns (future w)) = Normal child ->
  falsy (child_pid child) = false ->
  start_handler config input w =
  match waitForHealth default_maxAttempts default_delayMs
          (spawned (Config.serverPath config) (start_args parsed) child w) with
  | (w2, Normal true) =>
      (w2, Normal (text_result (JSON_stringify (JObject [
                     ("status", JString "started");
                     ("pid", js_nullable (pid (state w2)));
                     ("model", JString (model parsed));
                     ("port", JNumber (port parsed ?? 8080%float))]) 2)))
  | (w2, Normal false) =>
      match kill child "SIGTERM" w2 with
      | (w3, Normal _) =>
          (fst ((set_process None ;; set_pid None) w3),
           Normal (error_result "Error: llama-server started but did not become healthy within 30 seconds. Check model path and server logs."))
      | (w3, Throw e) => (w3, Normal (error_result ("Error: " ++ message_of e)))
      end
  | (w2, Throw e) => (w2, Normal (error_result ("Error: " ++ message_of e)))
  end.
Proof.
  intros Hparse Hstopped Hspawn Hpid.
  match goal with |- _ = ?rhs => remember rhs as R eqn:HR end.
  unfold start_handler, try_catch, bind, settle, get_state. rewrite Hparse.
  assert (Hcases : (exists c p, process (state w) = Some c /\ pid (state w) = Some p)
                   -> False).
  { intros [c [p [H1 H2]]]. destruct Hstopped; congruence. }
  destruct (process (state w)) as [c0 |] eqn:Hp;
    [destruct (pid (state w)) as [p0 |] eqn:Hq |];
    [exfalso; apply Hcases; eauto | |].
  all: unfold spawn, bind, log, with_future; cbn -[waitForHealth kill];
    rewrite Hspawn, Hpid.
  all: unfold set_process, set_pid, on_exit, bind, log; cbn -[waitForHealth kill].
  all: match goal with
       | |- context [waitForHealth _ _ ?x] =>
           change x with (spawned (Config.serverPath config) (start_args parsed) child w)
       end.
  all: subst R.
  all: destruct (waitForHealth default_maxAttempts default_delayMs
                   (spawned (Config.serverPath config) (start_args parsed) child w))
    as [w2 [[|] | e]]; [| | reflexivity].
  all: try reflexivity.
  all: cbn -[kill]; destruct (kill child "SIGTERM" w2) as [w3 [b | e]]; reflexivity.
Qed.

(** X1.  [stop] while the state holds no handle or no pid fails with the
    "not running" message and does nothing else: no signal is sent and the
    state is as it was, also when only one of the two fields is set. *)
Theorem stop_when_not_running (w : World) :
  process (state w) = None \/ pid (state w) = None ->
  stop_handler w
  = (w, Normal (error_result "Error: llama-server is not running. Nothing to stop.")).
Proof.
  intro H. unfold stop_handler, try_catch, bind, get_state.
  destruct (process (state w)) as [c |], (pid (state w)) as [p |];
    try reflexivity.
  destruct H; discriminate.
Qed.

(** X2.  [start] on an input the schema rejects fails with "Error: " and
    the message of the validation error, whatever the process state is;
    nothing is spawned and the world is as it was. *)
Theorem start_rejects_invalid_input (input : JsValue) (e : Exception) (w : World) :
  StartInputSchema_parse input = Throw e ->
  start_handler config input w
  = (w, Normal (error_result ("Error: " ++ message_of e))).
Proof.
  intro H. unfold start_handler, try_catch, bind, settle. rewrite H. reflexivity.
Qed.

(** [start] when [spawn] gives no usable child: the handler fails at once
    and the spawn is the only event. *)
Lemma start_without_child (input : JsValue) (parsed : StartInput) (w : World) :
  StartInputSchema_parse input = Normal parsed ->
  process (state w) = None \/ pid (state w) = None ->
  (forall child,
      shead (spawns (future w)) = Normal child ->
      falsy (child_pid child) = true ->
      snd (start_handler config input w)
      = Normal (error_result ("Error: Failed to start llama-server at "
                                ++ Config.serverPath config
                                ++ ". Check that the binary exists and is executable."))
      /\ state (fst (start_handler config input w)) = state w
      /\ listeners (fst (start_handler config input w)) = listeners w
      /\ trace (fst (start_handler config input w))
         = (trace w ++ [Spawn (Config.serverPath config) (start_args parsed)])%list)
  /\
  (forall e,
      shead (spawns (future w)) = Throw e ->
      snd (start_handler config input w)
      = Normal (error_result ("Error: " ++ message_of e))
      /\ state (fst (start_handler config input w)) = state w
      /\ listeners (fst (start_handler config input w)) = listeners w
      /\ trace (fst (start_handler config input w))
         = (trace w ++ [Spawn (Config.serverPath config) (start_args parsed)])%list).
Proof.
  intros Hparse Hstopped.
  assert (Hcases : (exists c p, process (state w) = Some c /\ pid (state w) = Some p)
                   -> False).
  { intros [c [p [H1 H2]]]. destruct Hstopped; congruence. }
  split.
  - intros child Hspawn Hpid.
    unfold start_handler, try_catch, bind, settle, get_state. rewrite Hparse.
    destruct (process (state w)) as [c0 |] eqn:Hp;
      [destruct (pid (state w)) as [p0 |] eqn:Hq |];
      [exfalso; apply Hcases; eauto | |].
    all: unfold spawn, bind, log, with_future; cbn -[waitForHealth];
      rewrite Hspawn, Hpid; cbn.
    all: rewrite ?Hp, ?Hq; repeat split.
  - intros e Hspawn.
    unfold start_handler, try_catch, bind, settle, get_state. rewrite Hparse.
    destruct (process (state w)) as [c0 |] eqn:Hp;
      [destruct (pid (state w)) as [p0 |] eqn:Hq |];
      [exfalso; apply Hcases; eauto | |].
    all: unfold spawn, bind, log, with_future; cbn -[waitForHealth];
      rewrite Hspawn; cbn.
    all: rewrite ?Hp, ?Hq; repeat split.
Qed.

(** X3.  [start] on an input the schema accepts, from a state that is not
    Running: when [spawn] gives a child without a pid (or with the pid 0),
    or throws, [start] fails at once, with the "Failed to start" message
    that names the configured path, or with the thrown message.  The
    process state is as before, no exit listener is registered, and the
    spawn is the only event: the health endpoint is not polled. *)
Theorem start_spawn_failure (input : JsValue) (parsed : StartInput) (w : World) :
  StartInputSchema_parse input = Normal parsed ->
  process (state w) = None \/ pid (state w) = None ->
  (forall child,
      shead (spawns (future w)) = Normal child ->
      falsy (child_pid child) = true ->
      snd (start_handler config input w)
      = Normal (error_result ("Error: Failed to start llama-server at "
                                ++ Config.serverPath config
                                ++ ". Check that the binary exists and is executable."))
      /\ state (fst (start_handler config input w)) = state w
      /\ listeners (fst (start_handler config input w)) = listeners w
      /\ trace (fst (start_handler config input w))
         = (trace w ++ [Spawn (Config.serverPath config) (start_args parsed)])%list)
  /\
  (forall e,
      shead (spawns (future w)) = Throw e ->
      snd (start_handler config input w)
      = Normal (error_result ("Error: " ++ message_of e))
      /\ state (fst (start_handler config input w)) = state w
      /\ listeners (fst (start_handler config input w)) = listeners w
      /\ trace (fst (start_handler config input w))
         = (trace w ++ [Spawn (Config.serverPath config) (start_args parsed)])%list).
Proof. exact (start_without_child input w). Qed.

Lemma polling_event_in (evs : list Event) (e : Event) :
  forallb polling_event evs = true -> In e evs -> polling_event e = true.
Proof.
  intros H Hin. exact (proj1 (forallb_forall polling_event evs) H e Hin).
Qed.

(** X4.  [start] on an input the schema accepts, from a state that is not
    Running, spawns exactly once: its first event is the spawn of the
    configured executable with
    [-m <model> --port <port> -c <ctx_size> -ngl <n_gpu_layers>], each
    number as [String] prints it, the defaults 8080, 2048 and -1 standing
    in for absent values, and with [-t <threads>] after them only when
    [threads] is given.  Whatever happens next, no later event is a spawn,
    and the only signal ever sent is SIGTERM to the child that this spawn
    returned. *)
Theorem start_spawns_once (input : JsValue) (parsed : StartInput) (w : World) :
  StartInputSchema_parse input = Normal parsed ->
  process (state w) = None \/ pid (state w) = None ->
  exists rest,
    trace (fst (start_handler config input w))
    = (trace w
       ++ Spawn (Config.serverPath config)
            (["-m"; model parsed;
              "--port"; String_of_number (port parsed ?? 8080%float);
              "-c"; String_of_number (ctx_size parsed ?? 2048%float);
              "-ngl"; String_of_number (n_gpu_layers parsed ?? (-1)%float)]
             ++ match threads parsed with
                | Some t => ["-t"; String_of_number t]
                | None => []
                end)
       :: rest)%list
    /\ forall e, In e rest ->
         match e with
         | Spawn _ _ => False
         | Kill h sig =>
             sig = "SIGTERM"
             /\ exists child, shead (spawns (future w)) = Normal child /\ h = handle child
         | _ => True
         end.
Proof.
  intros Hparse Hstopped.
  change (["-m"; model parsed;
           "--port"; String_of_number (port parsed ?? 8080%float);
           "-c"; String_of_number (ctx_size parsed ?? 2048%float);
           "-ngl"; String_of_number (n_gpu_layers parsed ?? (-1)%float)]
          ++ match threads parsed with
             | Some t => ["-t"; String_of_number t]
             | None => []
             end)%list with (start_args parsed).
  destruct (shead (spawns (future w))) as [child | e] eqn:Hspawn.
  - destruct (falsy (child_pid child)) eqn:Hpid.
    + destruct (proj1 (start_without_child input w Hparse Hstopped) child Hspawn Hpid)
        as [_ [_ [_ T]]].
      exists []. split; [exact T | intros e []].
    + rewrite (start_polls input w Hparse Hstopped Hspawn Hpid).
      destruct (@loop_polled default_maxAttempts default_delayMs
                  (spawned (Config.serverPath config) (start_args parsed) child w))
        as [w2 [b [E [[evs [T [P _]]] _]]]].
      unfold waitForHealth. rewrite E.
      assert (Hevs : forall e, In e evs ->
                match e with
                | Spawn _ _ => False
                | Kill h sig =>
                    sig = "SIGTERM"
                    /\ exists child0, Normal child = Normal child0 /\ h = handle child0
                | _ => True
                end).
      { intros e Hin. pose proof (polling_event_in evs e P Hin) as Pe.
        destruct e; try exact I; discriminate. }
      cbn [spawned trace] in T.
      destruct b.
      * exists (OnExit (handle child) :: evs). split.
        -- cbn [fst]. rewrite T, <- !app_assoc. reflexivity.
        -- intros e [<- | Hin]; [exact I | apply Hevs; exact Hin].
      * assert (Hk : forall w3 c, kill child "SIGTERM" w2 = (w3, c) ->
                       trace w3 = (trace w2 ++ [Kill (handle child) "SIGTERM"])%list).
        { intros w3 c Ek. unfold kill, bind, log, with_future in Ek. cbn in Ek.
          injection Ek as <- _. reflexivity. }
        exists (OnExit (handle child) :: evs ++ [Kill (handle child) "SIGTERM"])%list.
        split.
        -- destruct (kill child "SIGTERM" w2) as [w3 [r | e]] eqn:Ek;
             cbn [fst]; [unfold bind, set_process, set_pid; cbn [fst trace] |];
             rewrite (Hk _ _ eq_refl), T, <- !app_assoc; reflexivity.
        -- intros e [<- | Hin]; [exact I |].
           apply in_app_or in Hin. destruct Hin as [Hin | [<- | []]].
           ++ apply Hevs. exact Hin.
           ++ split; [reflexivity |]. exists child. split; reflexivity.
  - destruct (proj2 (start_without_child input w Hparse Hstopped) e Hspawn)
      as [_ [_ [_ T]]].
    exists []. split; [exact T | intros e' []].
Qed.

Lemma spawned_calm (command : string) (args : list string) (child : ChildProcess)
      (w : World) :
  calm w -> calm (spawned command args child w).
Proof. intros C i. apply C. Qed.

(** X5.  [start] on an input the schema accepts, from a state that is not
    Running: when the child is spawned, no child exits meanwhile, and
    attempt [k] of the 30 is the first to report [ok], [start] succeeds
    after exactly [k + 1] health calls.  It returns the descriptor
    [{status: "started", pid, model, port}] with the child's pid and the
    port number of the input (8080 when absent), the state holds the child
    and its pid, the exit listener is registered, and after the spawn there
    are only polling events, so no signal is sent. *)
Theorem start_healthy (input : JsValue) (parsed : StartInput) (w : World)
        (child : ChildProcess) (k : nat) :
  StartInputSchema_parse input = Normal parsed ->
  process (state w) = None \/ pid (state w) = None ->
  shead (spawns (future w)) = Normal child ->
  falsy (child_pid child) = false ->
  calm w ->
  first_ok k w ->
  (k < default_maxAttempts)%nat ->
  exists evs,
    snd (start_handler config input w)
    = Normal (text_result (JSON_stringify (JObject [
                ("status", JString "started");
                ("pid", js_nullable (child_pid child));
                ("model", JString (model parsed));
                ("port", JNumber (port parsed ?? 8080%float))]) 2))
    /\ state (fst (start_handler config input w))
       = {| process := Some child; pid := child_pid child |}
    /\ listeners (fst (start_handler config input w)) = handle child :: listeners w
    /\ trace (fst (start_handler config input w))
       = (trace w
          ++ [Spawn (Config.serverPath config) (start_args parsed);
              OnExit (handle child)]
          ++ evs)%list
    /\ health_calls evs = S k
    /\ forallb polling_event evs = true.
Proof.
  intros Hparse Hstopped Hspawn Hpid C F Hk.
  rewrite (start_polls input w Hparse Hstopped Hspawn Hpid).
  destruct (@loop_calm_first_ok default_maxAttempts default_delayMs k
              (spawned (Config.serverPath config) (start_args parsed) child w)
              (spawned_calm _ _ _ C) F Hk)
    as [w2 [evs [E [[S2 [L2 [T2 _]]] [N P]]]]].
  unfold waitForHealth. rewrite E. cbn [fst snd].
  exists evs. rewrite S2, L2, T2. cbn [spawned state listeners trace pid].
  repeat split; try assumption.
  rewrite <- !app_assoc. reflexivity.
Qed.

(** The first attempt of a loop that has one: when it reports [ok], the
    loop returns [true] in the world the health call left. *)
Lemma loop_first_attempt_ok (rest : nat) (delayMs : Z) (w : World) :
  reports_ok (shead (healths (future w))) = true ->
  waitForHealth_loop (S rest) delayMs w = (fst (client_health w), Normal true).
Proof.
  intro Hok. cbn [waitForHealth_loop]. unfold bind, attempt, try_catch, bind.
  destruct (client_health_run w) as [w1 [E _]]. rewrite E. cbn [fst].
  unfold reports_ok in Hok.
  destruct (shead (healths (future w))) as [v | e]; [| discriminate].
  unfold settle. destruct (status_of v) as [st | e]; [| discriminate].
  rewrite Hok. reflexivity.
Qed.

(** X6.  [start] on an input the schema accepts, from a state that is not
    Running: when the spawned child exits while the first health call is
    awaited and that call still reports [ok] (something else answers on
    the port), [start] reports success: the descriptor says "started" with
    the pid [null] and the port number of the input (8080 when absent),
    and the process state is Stopped. *)
Theorem start_reports_started_after_exit (input : JsValue) (parsed : StartInput)
        (w : World) (child : ChildProcess) :
  StartInputSchema_parse input = Normal parsed ->
  process (state w) = None \/ pid (state w) = None ->
  shead (spawns (future w)) = Normal child ->
  falsy (child_pid child) = false ->
  In (handle child) (shead (exits (future w))) ->
  reports_ok (shead (healths (future w))) = true ->
  snd (start_handler config input w)
  = Normal (text_result (JSON_stringify (JObject [
              ("status", JString "started");
              ("pid", JNull);
              ("model", JString (model parsed));
              ("port", JNumber (port parsed ?? 8080%float))]) 2))
  /\ state (fst (start_handler config input w)) = createProcessState.
Proof.
  intros Hparse Hstopped Hspawn Hpid Hexit Hok.
  rewrite (start_polls input w Hparse Hstopped Hspawn Hpid).
  unfold waitForHealth, default_maxAttempts.
  rewrite loop_first_attempt_ok by exact Hok.
  assert (Hs : state (fst (client_health
                 (spawned (Config.serverPath config) (start_args parsed) child w)))
               = createProcessState).
  { unfold client_health, bind, log, await_point. cbn.
    apply (deliveries_clear _ (handle child)); [exact Hexit |].
    left. reflexivity. }
  cbn [fst snd]. rewrite Hs. split; reflexivity.
Qed.

End Runs.

(** X7.  [waitForHealth] never rejects, and it returns [true] exactly when
    one of its [maxAttempts] calls reports [ok]: a rejected call, a
    response without a status and any other status only use up an attempt.
    With [maxAttempts] 0 it returns [false]. *)
Theorem waitForHealth_verdict (maxAttempts : nat) (delayMs : Z) (w : World) :
  exists w' b,
    waitForHealth maxAttempts delayMs w = (w', Normal b)
    /\ (b = true <->
        exists i, (i < maxAttempts)%nat /\ reports_ok (healths (future w) i) = true).
Proof.
  destruct (@loop_polled maxAttempts delayMs w) as [w' [b [E [_ Hb]]]].
  exists w', b. split; [exact E | exact Hb].
Qed.

Lemma loop_first_ok_grows (remaining : nat) (delayMs : Z) :
  forall k w,
    first_ok k w -> (k < remaining)%nat ->
    grows (S k) w (fst (waitForHealth_loop remaining delayMs w)).
Proof.
  induction remaining as [| rest IH]; intros k w F Hk; [inversion Hk |].
  cbn [waitForHealth_loop]. unfold bind.
  pose proof (attempt_grows delayMs w) as G1.
  destruct (attempt_polled delayMs w) as [w1 [E [_ H1]]]. rewrite E in *.
  cbn [fst] in G1.
  destruct k as [| j].
  - destruct F as [_ Hok]. unfold shead. rewrite Hok. exact G1.
  - unfold shead. rewrite (proj1 F O (Nat.lt_0_succ j)).
    assert (F1 : first_ok j w1).
    { apply (@first_ok_next _ w); [exact F |]. intro i. rewrite H1. reflexivity. }
    exact (grows_trans G1 (IH j w1 F1 (proj2 (Nat.succ_lt_mono _ _) Hk))).
Qed.

(** X8.  [waitForHealth] calls [client.health] at most [maxAttempts]
    times, and exactly [k + 1] times when attempt [k] is the first to
    report [ok]: it stops polling at the first [ok]. *)
Theorem waitForHealth_call_count (maxAttempts : nat) (delayMs : Z) (w : World) :
  (exists n, (n <= maxAttempts)%nat
             /\ grows n w (fst (waitForHealth maxAttempts delayMs w)))
  /\ (forall k, first_ok k w -> (k < maxAttempts)%nat ->
                grows (S k) w (fst (waitForHealth maxAttempts delayMs w))).
Proof.
  split.
  - apply health_calls_bounded.
  - intros k F Hk. apply loop_first_ok_grows; assumption.
Qed.

(** X9.  While no child exits, attempts that reject, that answer without
    a readable status or that say ["loading_model"] are each followed by
    the pause of [delayMs], the last one too: after [maxAttempts] such
    attempts the events are [maxAttempts] times a call and a pause, the
    result is [false] and the process state is untouched. *)
Theorem waitForHealth_pauses_after_failures (maxAttempts : nat) (delayMs : Z) (w : World) :
  calm w ->
  (forall i, (i < maxAttempts)%nat -> pauses (healths (future w) i) = true) ->
  snd (waitForHealth maxAttempts delayMs w) = Normal false
  /\ trace (fst (waitForHealth maxAttempts delayMs w))
     = (trace w ++ concat (repeat [Health; Sleep delayMs] maxAttempts))%list
  /\ state (fst (waitForHealth maxAttempts delayMs w)) = state w.
Proof.
  intros C Hp.
  destruct (@loop_calm_all_pause maxAttempts delayMs w C Hp)
    as [w' [E [S' [_ [T' _]]]]].
  unfold waitForHealth. rewrite E. cbn [fst snd].
  split; [reflexivity |]. split; assumption.
Qed.

Section Stops.

Context {host : Host}.

(** X10.  After a [stop] that sent its signal, a second [stop] finds the
    state Stopped: it fails with the "not running" message and sends
    nothing, so the process is signalled once. *)
Theorem stop_twice (w : World) (c : ChildProcess) (p : Z) (b : bool) :
  process (state w) = Some c ->
  pid (state w) = Some p ->
  shead (kills (future w)) = Normal b ->
  stop_handler (fst (stop_handler w))
  = (fst (stop_handler w),
     Normal (error_result "Error: llama-server is not running. Nothing to stop."))
  /\ trace (fst (stop_handler (fst (stop_handler w))))
     = (trace w ++ [Kill (handle c) "SIGTERM"])%list.
Proof.
  intros Hprocess Hpid Hkill.
  assert (E : exists w1, stop_handler w = (w1, Normal (text_result (JSON_stringify (JObject [
                     ("status", JString "stopped");
                     ("pid", JNumber (number_of_Z p))]) 2)))
                   /\ state w1 = createProcessState
                   /\ trace w1 = (trace w ++ [Kill (handle c) "SIGTERM"])%list).
  { unfold stop_handler, try_catch, bind, get_state, kill, log, with_future.
    rewrite Hprocess, Hpid. cbn. rewrite Hkill. cbn.
    eexists. split; [reflexivity |]. split; reflexivity. }
  destruct E as [w1 [E [S1 T1]]]. rewrite E. cbn [fst].
  assert (N : stop_handler w1
              = (w1, Normal (error_result "Error: llama-server is not running. Nothing to stop."))).
  { unfold stop_handler, try_catch, bind, get_state. rewrite S1. reflexivity. }
  rewrite N. split; [reflexivity | exact T1].
Qed.

End Stops.

#[local] Existing Instance Samples.process_host.

(** X1 in the initial state. *)
Lemma stop_when_not_running_witness :
  stop_handler (Samples.fresh Samples.two_servers)
  = (Samples.fresh Samples.two_servers,
     Normal (error_result "Error: llama-server is not running. Nothing to stop.")).
Proof.
  apply (@stop_when_not_running Samples.process_host).
  left. reflexivity.
Defined.

(** X2 on the input [null], while a server is running. *)
Lemma start_rejects_invalid_input_witness :
  start_handler Samples.sample_config JNull
    (Samples.running (Samples.child 7 12345) 12345 Samples.two_servers)
  = (Samples.running (Samples.child 7 12345) 12345 Samples.two_servers,
     Normal (error_result "Error: Expected object")).
Proof.
  apply (@start_rejects_invalid_input Samples.process_host Samples.sample_config
           JNull (ErrorObject "ZodError" "Expected object")).
  reflexivity.
Defined.

(** X3 when the executable is missing. *)
Lemma start_spawn_failure_witness :
  snd (start_handler Samples.sample_config (Samples.start_input "/m.gguf")
         (Samples.fresh MoreSamples.no_executable))
  = Normal (error_result "Error: Failed to start llama-server at llama-server. Check that the binary exists and is executable.")
  /\ state (fst (start_handler Samples.sample_config (Samples.start_input "/m.gguf")
                   (Samples.fresh MoreSamples.no_executable)))
     = createProcessState
  /\ listeners (fst (start_handler Samples.sample_config (Samples.start_input "/m.gguf")
                       (Samples.fresh MoreSamples.no_executable)))
     = []
  /\ trace (fst (start_handler Samples.sample_config (Samples.start_input "/m.gguf")
                   (Samples.fresh MoreSamples.no_executable)))
     = [Spawn "llama-server"
              ["-m"; "/m.gguf"; "--port"; "8080"; "-c"; "2048"; "-ngl"; "-1"]].
Proof.
  exact (proj1 (@start_spawn_failure Samples.process_host Samples.sample_config
                  (Samples.start_input "/m.gguf")
                  (MoreSamples.parsed_input "/m.gguf")
                  (Samples.fresh MoreSamples.no_executable)
                  eq_refl (or_introl eq_refl))
               {| handle := 1; child_pid := None |} eq_refl eq_refl).
Defined.

(** X4 on a start that succeeds at once. *)
Lemma start_spawns_once_witness :
  exists rest,
    trace (fst (start_handler Samples.sample_config (Samples.start_input "/m.gguf")
                  (Samples.fresh Samples.two_servers)))
    = (Spawn "llama-server"
             ["-m"; "/m.gguf"; "--port"; "8080"; "-c"; "2048"; "-ngl"; "-1"]
       :: rest)
    /\ forall e, In e rest ->
         match e with
         | Spawn _ _ => False
         | Kill h sig =>
             sig = "SIGTERM"
             /\ exists child, Normal (Samples.child 1 4001) = Normal child
                              /\ h = handle child
         | _ => True
         end.
Proof.
  exact (@start_spawns_once Samples.process_host Samples.sample_config
           (Samples.start_input "/m.gguf") (MoreSamples.parsed_input "/m.gguf")
           (Samples.fresh Samples.two_servers) eq_refl (or_introl eq_refl)).
Defined.

Lemma script_nil {A : Type} (d : A) (i : nat) : Samples.script [] d i = d.
Proof. destruct i; reflexivity. Qed.

(** X5 on a server that is ready at the third call. *)
Lemma start_healthy_witness :
  exists evs,
    snd (start_handler Samples.sample_config (Samples.start_input "/m.gguf")
           (Samples.fresh MoreSamples.slow_start))
    = Normal (text_result (Samples.sample_stringify (JObject [
                ("status", JString "started");
                ("pid", JNumber 4001%float);
                ("model", JString "/m.gguf");
                ("port", JNumber 8080%float)])))
    /\ state (fst (start_handler Samples.sample_config (Samples.start_input "/m.gguf")
                     (Samples.fresh MoreSamples.slow_start)))
       = {| process := Some (Samples.child 1 4001); pid := Some 4001 |}
    /\ listeners (fst (start_handler Samples.sample_config (Samples.start_input "/m.gguf")
                         (Samples.fresh MoreSamples.slow_start)))
       = [1%nat]
    /\ trace (fst (start_handler Samples.sample_config (Samples.start_input "/m.gguf")
                     (Samples.fresh MoreSamples.slow_start)))
       = ([Spawn "llama-server"
                 ["-m"; "/m.gguf"; "--port"; "8080"; "-c"; "2048"; "-ngl"; "-1"];
           OnExit 1]
          ++ evs)%list
    /\ health_calls evs = 3%nat
    /\ forallb polling_event evs = true.
Proof.
  apply (@start_healthy Samples.process_host Samples.sample_config
           (Samples.start_input "/m.gguf") (MoreSamples.parsed_input "/m.gguf")
           (Samples.fresh MoreSamples.slow_start) (Samples.child 1 4001) 2).
  - reflexivity.
  - left. reflexivity.
  - reflexivity.
  - reflexivity.
  - intro i. apply script_nil.
  - split.
    + intros i Hi. destruct i as [| [| i]]; [reflexivity | reflexivity | lia].
    + reflexivity.
  - unfold default_maxAttempts. lia.
Defined.

(** X6 on a child that exits during the first health call. *)
Lemma start_reports_started_after_exit_witness :
  snd (start_handler Samples.sample_config (Samples.start_input "/m.gguf")
         (Samples.fresh MoreSamples.dies_at_once))
  = Normal (text_result (Samples.sample_stringify (JObject [
              ("status", JString "started");
              ("pid", JNull);
              ("model", JString "/m.gguf");
              ("port", JNumber 8080%float)])))
  /\ state (fst (start_handler Samples.sample_config (Samples.start_input "/m.gguf")
                   (Samples.fresh MoreSamples.dies_at_once)))
     = createProcessState.
Proof.
  apply (@start_reports_started_after_exit Samples.process_host Samples.sample_config
           (Samples.start_input "/m.gguf") (MoreSamples.parsed_input "/m.gguf")
           (Samples.fresh MoreSamples.dies_at_once) (Samples.child 1 4001)).
  - reflexivity.
  - left. reflexivity.
  - reflexivity.
  - reflexivity.
  - left. reflexivity.
  - reflexivity.
Defined.

(** X8 on a server that is ready at the third call. *)
Lemma waitForHealth_call_count_witness :
  grows 3 (Samples.fresh MoreSamples.slow_start)
        (fst (waitForHealth default_maxAttempts default_delayMs
                (Samples.fresh MoreSamples.slow_start))).
Proof.
  apply (proj2 (waitForHealth_call_count default_maxAttempts default_delayMs
                  (Samples.fresh MoreSamples.slow_start)) 2%nat).
  - split.
    + intros i Hi. destruct i as [| [| i]]; [reflexivity | reflexivity | lia].
    + reflexivity.
  - unfold default_maxAttempts. lia.
Defined.

(** X9 on three refused calls. *)
Lemma waitForHealth_pauses_after_failures_witness :
  snd (waitForHealth 3 default_delayMs (Samples.fresh (Samples.never_up (Normal true))))
  = Normal false
  /\ trace (fst (waitForHealth 3 default_delayMs
                   (Samples.fresh (Samples.never_up (Normal true)))))
     = [Health; Sleep 1000; Health; Sleep 1000; Health; Sleep 1000]
  /\ state (fst (waitForHealth 3 default_delayMs
                   (Samples.fresh (Samples.never_up (Normal true)))))
     = createProcessState.
Proof.
  apply (@waitForHealth_pauses_after_failures 3 default_delayMs
           (Samples.fresh (Samples.never_up (Normal true)))).
  - intro i. apply script_nil.
  - intros i _. destruct i as [| i]; [reflexivity | destruct i; reflexivity].
Defined.

(** X10 on a running server. *)
Lemma stop_twice_witness :
  stop_handler (fst (stop_handler
                       (Samples.running (Samples.child 7 12345) 12345 Samples.two_servers)))
  = (fst (stop_handler
            (Samples.running (Samples.child 7 12345) 12345 Samples.two_servers)),
     Normal (error_result "Error: llama-server is not running. Nothing to stop."))
  /\ trace (fst (stop_handler (fst (stop_handler
              (Samples.running (Samples.child 7 12345) 12345 Samples.two_servers)))))
     = [Kill 7 "SIGTERM"].
Proof.
  exact (@stop_twice Samples.process_host
           (Samples.running (Samples.child 7 12345) 12345 Samples.two_servers)
           (Samples.child 7 12345) 12345 true eq_refl eq_refl eq_refl).
Defined.

End ProcessMore.

(** ** More on the client *)

Module ClientMore.
Import Client ClientSpec JsFacts ClientFacts.

Ltac unfold_method :=
  cbn [invoke replying fst snd createClient health props models slots metrics
       tokenize detokenize applyTemplate complete chat embed infill rerank
       loadModel unloadModel loraList loraSet].

Ltac run_method :=
  unfold_method;
  rewrite ?discard_effects, ?discard_settles,
          ?fetchJson_effects, ?fetchJson_settles,
          ?fetchText_effects, ?fetchText_settles.

Section Methods.

Context {host : Host}.
Variable config : Config.Config.

(** X11.  Whatever the server does, every client method arms the timeout
    once with the configured duration, makes one request to a path under
    the configured base URL with the abort signal attached, and disarms
    the timeout: on success, on an HTTP error, on a rejected [fetch] and
    on a body that does not parse alike. *)
Theorem timer_always_cleared (call : Call) :
  exists path init,
    fst (invoke (createClient config) call)
    = [SetTimeout (Config.timeout config);
       Fetch (Config.serverUrl config ++ path) init;
       ClearTimeout]
    /\ signal init = true.
Proof.
  destruct call as [| [s |] | | | | | | | | | | | | | | |];
    run_method; eexists; eexists; split; reflexivity.
Qed.

(** X12.  When [fetch] rejects (connection refused, aborted on timeout),
    every client method rejects with the very same error. *)
Theorem rejection_propagates (call : Call) (e : Exception) :
  (forall url init,
      In (url, init) (transport_calls (fst (invoke (createClient config) call))) ->
      fetch_outcome url init = Rejects e) ->
  snd (invoke (createClient config) call) = Throw e.
Proof.
  destruct call as [| [s |] | | | | | | | | | | | | | | |];
    run_method; cbn [transport_calls]; intro Hserver;
    rewrite (Hserver _ _ (or_introl eq_refl)); reflexivity.
Qed.

(** X13.  On a response with a status in 200-299 the methods hand back
    what the response holds, unchanged: [metrics] the body text, without
    looking for JSON; [loadModel] and [unloadModel] nothing, once the body
    has parsed; every other method the parsed body.  A body that fails to
    parse makes the method reject with the parser's error. *)
Theorem response_passes_through (call : Call) (r : Response) :
  answers_with (fst (invoke (createClient config) call)) r ->
  200 <= status r <= 299 ->
  snd (invoke (createClient config) call)
  = match call with
    | CallMetrics =>
        match text r with
        | Normal t => Normal (ReplyText t)
        | Throw e => Throw e
        end
    | CallLoadModel _ | CallUnloadModel _ =>
        match json r with
        | Normal _ => Normal ReplyVoid
        | Throw e => Throw e
        end
    | _ =>
        match json r with
        | Normal v => Normal (ReplyJson v)
        | Throw e => Throw e
        end
    end.
Proof.
  intros Hserver Hstatus. pose proof (inside_2xx r Hstatus) as Hok.
  unfold answers_with in Hserver. revert Hserver.
  destruct call as [| [s |] | | | | | | | | | | | | | | |];
    run_method; cbn [transport_calls]; intro Hserver;
    rewrite (Hserver _ _ (or_introl eq_refl)), Hok;
    try reflexivity; destruct (json r); reflexivity.
Qed.

(** X14.  Options given as an object without fields are the same as no
    options: [complete], [chat], [infill] and [tokenize] then perform the
    same request and settle the same way. *)
Theorem empty_options_are_no_options :
  (forall prompt,
      complete (createClient config) prompt (Some MoreSamples.no_completion_options)
      = complete (createClient config) prompt None)
  /\ (forall messages,
         chat (createClient config) messages (Some MoreSamples.no_chat_options)
         = chat (createClient config) messages None)
  /\ (forall prefix suffix,
         infill (createClient config) prefix suffix (Some MoreSamples.no_infill_options)
         = infill (createClient config) prefix suffix None)
  /\ (forall content,
         tokenize (createClient config) content (Some MoreSamples.no_tokenize_options)
         = tokenize (createClient config) content None).
Proof. repeat split. Qed.

(** X15.  A request of the client either has no method and no body (the
    reading methods), or is a POST with a body and the JSON content type
    (the writing methods); a body never goes without the POST method. *)
Theorem requests_read_or_post (call : Call) :
  exists url init,
    transport_calls (fst (invoke (createClient config) call)) = [(url, init)]
    /\ ((method init = None /\ body init = None)
        \/ (method init = Some "POST"
            /\ (exists b, body init = Some b)
            /\ headers init = Some [("Content-Type", "application/json")])).
Proof.
  destruct call as [| [s |] | | | | | | | | | | | | | | |];
    run_method; eexists; eexists; (split; [reflexivity |]);
    first [left; split; reflexivity
          | right; split; [reflexivity |]; split; [eexists; reflexivity | reflexivity]].
Qed.

End Methods.

(** X12 on an unreachable server. *)
Lemma rejection_propagates_witness :
  snd (invoke (createClient (host := MoreSamples.unreachable MoreSamples.fetch_failed)
                            Samples.sample_config) CallHealth)
  = Throw MoreSamples.fetch_failed.
Proof.
  apply (@rejection_propagates (MoreSamples.unreachable MoreSamples.fetch_failed)
           Samples.sample_config CallHealth MoreSamples.fetch_failed).
  intros url init _. reflexivity.
Defined.

(** X13 on [metrics] and a body that is not JSON. *)
Lemma response_passes_through_witness :
  200 <= status Samples.no_content <= 299
  /\ snd (invoke (createClient (host := Samples.constant_server Samples.no_content)
                               Samples.sample_config) CallMetrics)
     = Normal (ReplyText "").
Proof.
  split; [cbn; lia |].
  apply (@response_passes_through (Samples.constant_server Samples.no_content)
           Samples.sample_config CallMetrics Samples.no_content).
  - intros url init _. reflexivity.
  - cbn. lia.
Defined.

End ClientMore.

(** ** The tools over the client *)

Module ToolsFacts.
Import Client ClientSpec Tools ToolsSpec JsFacts ClientFacts.

(** *** [includes] and [formatError] *)

Lemma prefix_spec (p : string) :
  forall s, String.prefix p s = true <-> exists after, s = p ++ after.
Proof.
  induction p as [| a p IH]; intro s.
  - destruct s; cbn; split; intros _; eauto.
  - destruct s as [| b s]; cbn.
    + split; [discriminate | intros [after H]; discriminate].
    + destruct (ascii_dec a b) as [-> | Hne].
      * rewrite IH. split; intros [after H]; exists after.
        -- rewrite H. reflexivity.
        -- injection H as H. exact H.
      * split; [discriminate |]. intros [after H]. injection H as H _.
        congruence.
Qed.

(** [includes] is the substring test. *)
Lemma includes_spec (s sub : string) : includes s sub = true <-> contains s sub.
Proof.
  unfold contains. induction s as [| c s IH]; cbn [includes].
  - rewrite orb_false_r, prefix_spec. split.
    + intros [after H]. exists "", after. exact H.
    + intros [before [after H]]. destruct before as [| b before]; [| discriminate].
      exists after. exact H.
  - rewrite orb_true_iff, prefix_spec, IH. split.
    + intros [[after H] | [before [after H]]].
      * exists "", after. exact H.
      * exists (String c before), after. cbn. rewrite H. reflexivity.
    + intros [before [after H]]. destruct before as [| b before].
      * left. exists after. exact H.
      * right. injection H as _ H. exists before, after. exact H.
Qed.

Lemma includes_false (s sub : string) : includes s sub = false <-> ~ contains s sub.
Proof.
  rewrite <- includes_spec. destruct (includes s sub); split; intro H;
    try reflexivity; try discriminate; try (intro; discriminate).
  exfalso. apply H. reflexivity.
Qed.

Lemma formatError_connect (message baseUrl : string) :
  contains message "ECONNREFUSED" \/ contains message "fetch failed" ->
  formatError message baseUrl
  = "Cannot connect to llama-server at " ++ baseUrl
      ++ ". Is it running? Use llama_start or start it manually.".
Proof.
  intro H. unfold formatError.
  assert (E : includes message "ECONNREFUSED" || includes message "fetch failed" = true).
  { apply orb_true_iff. destruct H as [H | H]; [left | right];
      apply includes_spec; exact H. }
  rewrite E. reflexivity.
Qed.

Lemma formatError_timeout (message baseUrl : string) :
  ~ contains message "ECONNREFUSED" ->
  ~ contains message "fetch failed" ->
  contains message "abort" \/ contains message "timeout" ->
  formatError message baseUrl
  = "Request timed out. Try reducing max_tokens or check server load.".
Proof.
  intros N1 N2 H. unfold formatError.
  rewrite (proj2 (includes_false _ _) N1), (proj2 (includes_false _ _) N2).
  assert (E : includes message "abort" || includes message "timeout" = true).
  { apply orb_true_iff. destruct H as [H | H]; [left | right];
      apply includes_spec; exact H. }
  cbn [orb]. rewrite E. reflexivity.
Qed.

Lemma formatError_other (message baseUrl : string) :
  ~ contains message "ECONNREFUSED" ->
  ~ contains message "fetch failed" ->
  ~ contains message "abort" ->
  ~ contains message "timeout" ->
  formatError message baseUrl = message.
Proof.
  intros N1 N2 N3 N4. unfold formatError.
  rewrite (proj2 (includes_false _ _) N1), (proj2 (includes_false _ _) N2),
          (proj2 (includes_false _ _) N3), (proj2 (includes_false _ _) N4).
  reflexivity.
Qed.

(** X24.  [formatError] sorts a message by the words in it.  A message
    with "ECONNREFUSED" or "fetch failed" gives the cannot-connect text,
    which names the base URL, also when the message speaks of a timeout
    too; otherwise a message with "abort" or "timeout" gives the timed-out
    text; a message with none of the four words is returned unchanged. *)
Theorem formatError_classifies (message baseUrl : string) :
  (contains message "ECONNREFUSED" \/ contains message "fetch failed" ->
   formatError message baseUrl
   = "Cannot connect to llama-server at " ++ baseUrl
       ++ ". Is it running? Use llama_start or start it manually.")
  /\ (~ contains message "ECONNREFUSED" ->
      ~ contains message "fetch failed" ->
      contains message "abort" \/ contains message "timeout" ->
      formatError message baseUrl
      = "Request timed out. Try reducing max_tokens or check server load.")
  /\ (~ contains message "ECONNREFUSED" ->
      ~ contains message "fetch failed" ->
      ~ contains message "abort" ->
      ~ contains message "timeout" ->
      formatError message baseUrl = message).
Proof.
  split; [apply formatError_connect |].
  split; [apply formatError_timeout | apply formatError_other].
Qed.

(** X24 on the message of a refused connection that also mentions a
    timeout. *)
Lemma formatError_classifies_witness :
  contains "connect ECONNREFUSED 127.0.0.1:8080 after timeout" "ECONNREFUSED"
  /\ formatError "connect ECONNREFUSED 127.0.0.1:8080 after timeout"
                 "http://localhost:8080"
     = "Cannot connect to llama-server at http://localhost:8080. Is it running? Use llama_start or start it manually.".
Proof.
  assert (H : contains "connect ECONNREFUSED 127.0.0.1:8080 after timeout"
                       "ECONNREFUSED").
  { exists "connect ", " 127.0.0.1:8080 after timeout". reflexivity. }
  split; [exact H |].
  exact (proj1 (formatError_classifies
                  "connect ECONNREFUSED 127.0.0.1:8080 after timeout"
                  "http://localhost:8080")
               (or_introl H)).
Defined.

(** *** The shape of a handler *)

Lemma settle_bind {A B : Type} (c : Completion A) (k : A -> IO B) :
  (x <- settle c ;; k x)
  = match c with
    | Normal a => k a
    | Throw e => ([], Throw e)
    end.
Proof.
  destruct c as [a | e]; cbn; [destruct (k a); reflexivity | reflexivity].
Qed.

(** A handler that calls the client once and renders the result: its
    effects are those of the call, and it resolves either way. *)
Lemma handler_shape {host : Host} {A : Type} (client : LlamaClient) (m : IO A)
      (k : A -> Process.ToolResult) :
  try_catch (x <- m ;; ret (k x)) (report client)
  = (fst m,
     Normal match snd m with
            | Normal a => k a
            | Throw e =>
                Process.error_result
                  ("Error: " ++ formatError (message_of e) (baseUrl client))
            end).
Proof.
  destruct m as [t [a | e]]; cbn; rewrite app_nil_r; reflexivity.
Qed.

Lemma rejected_shape {host : Host} (client : LlamaClient) (e : Exception) :
  try_catch ([], Throw e) (report client)
  = ([], Normal (Process.error_result
                   ("Error: " ++ formatError (message_of e) (baseUrl client)))).
Proof. reflexivity. Qed.

Ltac open_tool :=
  cbn [tool handler createHealthTool createPropsTool createModelsTool
       createSlotsTool createMetricsTool createCompleteTool createChatTool
       createEmbedTool createInfillTool createRerankTool createLoadModelTool
       createUnloadModelTool createLoraListTool createLoraSetTool];
  rewrite ?settle_bind.

(** Splits on the schema's verdict where the tool has a schema. *)
Ltac split_parse :=
  match goal with
  | |- context [PropsInputSchema_parse ?i] =>
      destruct (PropsInputSchema_parse i) as [parsed | invalid] eqn:Hparse
  | |- context [CompleteInputSchema_parse ?i] =>
      destruct (CompleteInputSchema_parse i) as [parsed | invalid] eqn:Hparse
  | |- context [ChatInputSchema_parse ?i] =>
      destruct (ChatInputSchema_parse i) as [parsed | invalid] eqn:Hparse
  | |- context [EmbedInputSchema_parse ?i] =>
      destruct (EmbedInputSchema_parse i) as [parsed | invalid] eqn:Hparse
  | |- context [InfillInputSchema_parse ?i] =>
      destruct (InfillInputSchema_parse i) as [parsed | invalid] eqn:Hparse
  | |- context [RerankInputSchema_parse ?i] =>
      destruct (RerankInputSchema_parse i) as [parsed | invalid] eqn:Hparse
  | |- context [LoadModelInputSchema_parse ?i] =>
      destruct (LoadModelInputSchema_parse i) as [parsed | invalid] eqn:Hparse
  | |- context [UnloadModelInputSchema_parse ?i] =>
      destruct (UnloadModelInputSchema_parse i) as [parsed | invalid] eqn:Hparse
  | |- context [LoraSetInputSchema_parse ?i] =>
      destruct (LoraSetInputSchema_parse i) as [parsed | invalid] eqn:Hparse
  | _ => idtac
  end.

Section AnyClient.

Context {host : Host}.
Variable client : LlamaClient.

(** X16.  A handler of the fourteen client tools does not reject, on any
    input, as long as what the schema and the client throw is an [Error]
    with a string message or a value that [String] converts (the thrown
    values of [Exception]; all that [client.ts] throws is of the first
    kind): it resolves with a text result that is not marked as an error,
    or with a result marked [isError] whose text starts with "Error: ". *)
Theorem tools_always_resolve (id : ToolId) (input : JsValue) :
  exists r,
    snd (handler (tool client id) input) = Normal r
    /\ ((exists t, r = Process.text_result t)
        \/ (exists m, r = Process.error_result ("Error: " ++ m))).
Proof.
  destruct id; open_tool; split_parse;
    rewrite ?handler_shape, ?rejected_shape; cbn [snd];
    eexists; (split; [reflexivity |]);
    try (right; eexists; reflexivity);
    match goal with
    | |- context [match snd ?m with _ => _ end] =>
        destruct (snd m); [left | right]; eexists; reflexivity
    end.
Qed.

(** X17.  When the tool's schema rejects the input, the handler calls no
    method of the client: it performs no effect at all and returns the
    validation message, passed through [formatError], as an error. *)
Theorem invalid_input_makes_no_request (id : ToolId) (input : JsValue) (e : Exception) :
  validation id input = Some e ->
  handler (tool client id) input
  = ([], Normal (Process.error_result
                   ("Error: " ++ formatError (message_of e) (baseUrl client)))).
Proof.
  intro Hval.
  destruct id; cbn [validation] in Hval; try discriminate;
    open_tool; split_parse; cbn [failure] in Hval; try discriminate;
    injection Hval as <-; reflexivity.
Qed.

End AnyClient.

Ltac run_client :=
  cbn [createClient Client.health Client.props Client.models Client.slots
       Client.metrics Client.tokenize Client.detokenize Client.applyTemplate
       Client.complete Client.chat Client.embed Client.infill Client.rerank
       Client.loadModel Client.unloadModel Client.loraList Client.loraSet
       baseUrl fst snd];
  rewrite ?discard_effects, ?discard_settles,
          ?fetchJson_effects, ?fetchJson_settles,
          ?fetchText_effects, ?fetchText_settles.

Section RealClient.

Context {chost : Client.Host} {host : Host}.
Variable config : Config.Config.

(** X18.  On an input its schema accepts, a tool makes exactly one request
    to the server, between arming and disarming the timeout, however the
    request ends: no tool retries. *)
Theorem tools_make_one_request (id : ToolId) (input : JsValue) :
  validation id input = None ->
  exists url init,
    fst (handler (tool (createClient config) id) input)
    = [SetTimeout (Config.timeout config); Fetch url init; ClearTimeout].
Proof.
  intro Hval.
  destruct id; cbn [validation] in Hval;
    open_tool; split_parse; cbn [failure] in Hval; try discriminate;
    rewrite handler_shape; cbn [fst];
    try (destruct (default_generation_settings parsed));
    run_client; eexists; eexists; reflexivity.
Qed.

(** How a tool reports a failed call, by the outcome of [fetch]. *)
Lemma tool_reports_failure (id : ToolId) (input : JsValue) (e : Exception) :
  validation id input = None ->
  (forall url init,
      fetch_outcome url init = Rejects e
      \/ exists r, fetch_outcome url init = Resolves r
                   /\ ok r = false
                   /\ e = Error ("HTTP " ++ String_of_Z (status r) ++ ": " ++ statusText r)) ->
  snd (handler (tool (createClient config) id) input)
  = Normal (Process.error_result
              ("Error: " ++ formatError (message_of e) (Config.serverUrl config))).
Proof.
  intros Hval Hserver.
  assert (J : forall path options,
             snd (fetchJson config path options) = Throw e).
  { intros path options. rewrite fetchJson_settles.
    destruct (Hserver (Config.serverUrl config ++ path) (sent options))
      as [-> | [r [-> [-> ->]]]]; reflexivity. }
  assert (T : forall path, snd (fetchText config path) = Throw e).
  { intros path. rewrite fetchText_settles.
    destruct (Hserver (Config.serverUrl config ++ path) read_text)
      as [-> | [r [-> [-> ->]]]]; reflexivity. }
  destruct id; cbn [validation] in Hval;
    open_tool; split_parse; cbn [failure] in Hval; try discriminate;
    rewrite handler_shape; cbn [snd];
    try (destruct (default_generation_settings parsed));
    cbn [createClient Client.health Client.props Client.models Client.slots
         Client.metrics Client.complete Client.chat Client.embed Client.infill
         Client.rerank Client.loadModel Client.unloadModel Client.loraList
         Client.loraSet baseUrl];
    rewrite ?discard_settles, ?J, ?T; reflexivity.
Qed.

(** X19.  When the server cannot be reached and [fetch] rejects, every
    tool turns the rejection into advice: a message with "ECONNREFUSED" or
    "fetch failed" becomes the cannot-connect text that names the
    configured URL; otherwise a message with "abort" or "timeout" becomes
    the timed-out text. *)
Theorem tools_report_rejected_fetch (id : ToolId) (input : JsValue) (e : Exception) :
  validation id input = None ->
  (forall url init, fetch_outcome url init = Rejects e) ->
  (contains (message_of e) "ECONNREFUSED" \/ contains (message_of e) "fetch failed" ->
   snd (handler (tool (createClient config) id) input)
   = Normal (Process.error_result (cannot_connect (Config.serverUrl config))))
  /\ (~ contains (message_of e) "ECONNREFUSED" ->
      ~ contains (message_of e) "fetch failed" ->
      contains (message_of e) "abort" \/ contains (message_of e) "timeout" ->
      snd (handler (tool (createClient config) id) input)
      = Normal (Process.error_result timed_out)).
Proof.
  intros Hval Hserver.
  assert (R : snd (handler (tool (createClient config) id) input)
              = Normal (Process.error_result
                          ("Error: " ++ formatError (message_of e)
                                          (Config.serverUrl config)))).
  { apply tool_reports_failure; [exact Hval |]. intros url init. left. apply Hserver. }
  rewrite R. split.
  - intro H. rewrite (formatError_connect _ H). reflexivity.
  - intros N1 N2 H. rewrite (formatError_timeout _ N1 N2 H). reflexivity.
Qed.

(** X20.  When the server answers with a status outside 200-299, every
    tool reports "Error: HTTP <status>: <statusText>" as long as that
    message holds none of the four words [formatError] looks for; when the
    status text speaks of a "timeout" (and of no connection failure), the
    tool reports the timed-out text instead and the status is not shown. *)
Theorem tools_report_http_errors (id : ToolId) (input : JsValue) (r : Response) :
  validation id input = None ->
  (forall url init, fetch_outcome url init = Resolves r) ->
  status r < 200 \/ 299 < status r ->
  ~ contains ("HTTP " ++ String_of_Z (status r) ++ ": " ++ statusText r) "ECONNREFUSED" ->
  ~ contains ("HTTP " ++ String_of_Z (status r) ++ ": " ++ statusText r) "fetch failed" ->
  (~ contains ("HTTP " ++ String_of_Z (status r) ++ ": " ++ statusText r) "abort" ->
   ~ contains ("HTTP " ++ String_of_Z (status r) ++ ": " ++ statusText r) "timeout" ->
   snd (handler (tool (createClient config) id) input)
   = Normal (Process.error_result
               ("Error: HTTP " ++ String_of_Z (status r) ++ ": " ++ statusText r)))
  /\ (contains (statusText r) "timeout" ->
      snd (handler (tool (createClient config) id) input)
      = Normal (Process.error_result timed_out)).
Proof.
  intros Hval Hserver Hstatus N1 N2.
  assert (R : snd (handler (tool (createClient config) id) input)
              = Normal (Process.error_result
                          ("Error: " ++ formatError
                                          ("HTTP " ++ String_of_Z (status r) ++ ": "
                                             ++ statusText r)
                                          (Config.serverUrl config)))).
  { apply (tool_reports_failure id input
             (e := Error ("HTTP " ++ String_of_Z (status r) ++ ": " ++ statusText r)));
      [exact Hval |].
    intros url init. right. exists r.
    split; [apply Hserver |]. split; [apply outside_2xx; exact Hstatus | reflexivity]. }
  rewrite R. split.
  - intros N3 N4. rewrite (formatError_other _ N1 N2 N3 N4). reflexivity.
  - intros [before [after H]].
    rewrite (formatError_timeout _ N1 N2); [reflexivity |].
    right. exists ("HTTP " ++ String_of_Z (status r) ++ ": " ++ before), after.
    rewrite H, !append_assoc. reflexivity.
Qed.

(** X21.  On a response with a status in 200-299, a tool other than
    [llama_metrics] and the two model tools returns the parsed body as JSON
    indented by 2, not marked as an error; [llama_metrics] returns the body
    text as it is, without serialising it. *)
Theorem tools_show_the_response (id : ToolId) (input : JsValue) (r : Response) :
  validation id input = None ->
  (forall url init, fetch_outcome url init = Resolves r) ->
  200 <= status r <= 299 ->
  (forall v, shows_body id = true -> json r = Normal v ->
             snd (handler (tool (createClient config) id) input)
             = Normal (Process.text_result (JSON_stringify_indent v 2)))
  /\ (forall t, id = MetricsTool -> text r = Normal t ->
                snd (handler (tool (createClient config) id) input)
                = Normal (Process.text_result t)).
Proof.
  intros Hval Hserver Hstatus. pose proof (inside_2xx r Hstatus) as Hok.
  split.
  - intros v Hshow Hjson.
    destruct id; try discriminate Hshow; cbn [validation] in Hval;
      open_tool; split_parse; cbn [failure] in Hval; try discriminate;
      rewrite handler_shape; cbn [snd];
      try (destruct (default_generation_settings parsed));
      run_client; rewrite Hserver, Hok, Hjson; reflexivity.
  - intros t -> Htext. open_tool. rewrite handler_shape. cbn [snd].
    run_client. rewrite Hserver, Hok, Htext. reflexivity.
Qed.

(** X22.  The inference tools send what their schema returned: the body
    of [llama_complete] carries the parsed [max_tokens] under [n_predict]
    and the parsed [temperature], [top_p] and [top_k]; [llama_chat] and
    [llama_infill] likewise.  The client's own defaults are not used. *)
Theorem inference_tools_send_parsed_values (input : JsValue) :
  (forall p, CompleteInputSchema_parse input = Normal p ->
     transport_calls (fst (handler (createCompleteTool (createClient config)) input))
     = [(Config.serverUrl config ++ "/completion",
         posted (JSON_stringify (JObject [
           ("prompt", JString (complete_prompt p));
           ("n_predict", JNumber (complete_max_tokens p));
           ("temperature", JNumber (complete_temperature p));
           ("top_p", JNumber (complete_top_p p));
           ("top_k", JNumber (complete_top_k p));
           ("stop", js_optional js_strings (complete_stop p));
           ("seed", js_optional JNumber (complete_seed p))])))])
  /\ (forall p, ChatInputSchema_parse input = Normal p ->
        transport_calls (fst (handler (createChatTool (createClient config)) input))
        = [(Config.serverUrl config ++ "/v1/chat/completions",
            posted (JSON_stringify (JObject [
              ("messages", js_messages (chat_messages p));
              ("max_tokens", JNumber (chat_input_max_tokens p));
              ("temperature", JNumber (chat_input_temperature p));
              ("top_p", JNumber (chat_input_top_p p));
              ("stop", js_optional js_strings (chat_input_stop p));
              ("seed", js_optional JNumber (chat_input_seed p))])))])
  /\ (forall p, InfillInputSchema_parse input = Normal p ->
        transport_calls (fst (handler (createInfillTool (createClient config)) input))
        = [(Config.serverUrl config ++ "/infill",
            posted (JSON_stringify (JObject [
              ("input_prefix", JString (input_prefix p));
              ("input_suffix", JString (input_suffix p));
              ("n_predict", JNumber (infill_input_max_tokens p));
              ("temperature", JNumber (infill_input_temperature p));
              ("stop", js_optional js_strings (infill_input_stop p))])))]).
Proof.
  repeat split; intros p Hp; open_tool; rewrite Hp, handler_shape; cbn [fst];
    run_client; reflexivity.
Qed.

(** X23.  [llama_load_model] and [llama_unload_model] on a response with a
    status in 200-299: when the body parses, the tool answers with
    [{success: true, model, message}], the message quoting the model; when
    the body does not parse (an empty body), the tool reports the parser's
    error although the server accepted the request. *)
Theorem model_tools_report (input : JsValue) (r : Response) :
  (forall url init, fetch_outcome url init = Resolves r) ->
  200 <= status r <= 299 ->
  (forall p, LoadModelInputSchema_parse input = Normal p ->
     snd (handler (createLoadModelTool (createClient config)) input)
     = Normal match json r with
              | Normal _ =>
                  Process.text_result (JSON_stringify_indent (JObject [
                    ("success", JBool true);
                    ("model", JString (load_model p));
                    ("message", JString ("Model " ++ dquote ++ load_model p ++ dquote
                                           ++ " loaded successfully"))]) 2)
              | Throw e =>
                  Process.error_result
                    ("Error: " ++ formatError (message_of e) (Config.serverUrl config))
              end)
  /\ (forall p, UnloadModelInputSchema_parse input = Normal p ->
        snd (handler (createUnloadModelTool (createClient config)) input)
        = Normal match json r with
                 | Normal _ =>
                     Process.text_result (JSON_stringify_indent (JObject [
                       ("success", JBool true);
                       ("model", JString (unload_model p));
                       ("message", JString ("Model " ++ dquote ++ unload_model p ++ dquote
                                              ++ " unloaded successfully"))]) 2)
                 | Throw e =>
                     Process.error_result
                       ("Error: " ++ formatError (message_of e) (Config.serverUrl config))
                 end).
Proof.
  intros Hserver Hstatus. pose proof (inside_2xx r Hstatus) as Hok.
  split; intros p Hp; open_tool; rewrite Hp, handler_shape; cbn [snd];
    run_client; rewrite Hserver, Hok; destruct (json r); reflexivity.
Qed.

End RealClient.

#[local] Existing Instance MoreSamples.tools_host.

(** X17 on [llama_chat] without messages. *)
Lemma invalid_input_makes_no_request_witness :
  handler (tool (createClient (host := Samples.constant_server Samples.success_body)
                              Samples.sample_config) ChatTool)
          (JObject [])
  = ([], Normal (Process.error_result "Error: messages: Required")).
Proof.
  apply (@invalid_input_makes_no_request MoreSamples.tools_host
           (createClient (host := Samples.constant_server Samples.success_body)
                         Samples.sample_config)
           ChatTool (JObject []) (ErrorObject "ZodError" "messages: Required")).
  reflexivity.
Defined.

(** X18 on [llama_health]. *)
Lemma tools_make_one_request_witness :
  exists url init,
    fst (handler (tool (createClient (host := Samples.constant_server Samples.internal_error)
                                     Samples.sample_config) HealthTool)
                 JNull)
    = [SetTimeout 30000; Fetch url init; ClearTimeout].
Proof.
  apply (@tools_make_one_request (Samples.constant_server Samples.internal_error)
           MoreSamples.tools_host Samples.sample_config HealthTool JNull).
  reflexivity.
Defined.

(** X19 on a refused connection. *)
Lemma tools_report_rejected_fetch_witness :
  contains (message_of MoreSamples.fetch_failed) "fetch failed"
  /\ snd (handler (tool (createClient
                           (host := MoreSamples.unreachable MoreSamples.fetch_failed)
                           Samples.sample_config) SlotsTool)
                  JNull)
     = Normal (Process.error_result "Error: Cannot connect to llama-server at http://localhost:8080. Is it running? Use llama_start or start it manually.").
Proof.
  assert (H : contains (message_of MoreSamples.fetch_failed) "fetch failed").
  { exists "", "". reflexivity. }
  split; [exact H |].
  apply (proj1 (@tools_report_rejected_fetch
                  (MoreSamples.unreachable MoreSamples.fetch_failed)
                  MoreSamples.tools_host Samples.sample_config SlotsTool JNull
                  MoreSamples.fetch_failed eq_refl (fun _ _ => eq_refl))).
  right. exact H.
Defined.

(** X20 on a 500 answer. *)
Lemma tools_report_http_errors_witness :
  snd (handler (tool (createClient (host := Samples.constant_server Samples.internal_error)
                                   Samples.sample_config) ModelsTool)
               JNull)
  = Normal (Process.error_result "Error: HTTP 500: Internal Server Error").
Proof.
  refine (proj1 (@tools_report_http_errors
                  (Samples.constant_server Samples.internal_error)
                  MoreSamples.tools_host Samples.sample_config ModelsTool JNull
                  Samples.internal_error eq_refl (fun _ _ => eq_refl)
                  (or_intror eq_refl) _ _) _ _);
    apply includes_false; reflexivity.
Defined.

(** X21 on [llama_health] and a JSON body. *)
Lemma tools_show_the_response_witness :
  snd (handler (tool (createClient (host := Samples.constant_server Samples.success_body)
                                   Samples.sample_config) HealthTool)
               JNull)
  = Normal (Process.text_result
              (Samples.sample_stringify (JObject [("success", JBool true)]))).
Proof.
  apply (proj1 (@tools_show_the_response
                  (Samples.constant_server Samples.success_body)
                  MoreSamples.tools_host Samples.sample_config HealthTool JNull
                  Samples.success_body eq_refl (fun _ _ => eq_refl)
                  ltac:(cbn; lia))
               (JObject [("success", JBool true)]) eq_refl eq_refl).
Defined.

(** X22 on the prompt "hello", the other fields at the schema's defaults. *)
Lemma inference_tools_send_parsed_values_witness :
  transport_calls
    (fst (handler (createCompleteTool
                     (createClient (host := Samples.constant_server Samples.success_body)
                                   Samples.sample_config))
                  (JObject [("prompt", JString "hello")])))
  = [("http://localhost:8080/completion",
      posted (Samples.sample_stringify (JObject [
        ("prompt", JString "hello");
        ("n_predict", JNumber 256%float);
        ("temperature", JNumber 0.7%float);
        ("top_p", JNumber 0.9%float);
        ("top_k", JNumber 40%float);
        ("stop", JUndefined);
        ("seed", JUndefined)])))].
Proof.
  exact (proj1 (@inference_tools_send_parsed_values
                  (Samples.constant_server Samples.success_body)
                  MoreSamples.tools_host Samples.sample_config
                  (JObject [("prompt", JString "hello")]))
               _ eq_refl).
Defined.

(** X23 on an answer 204 without a body. *)
Lemma model_tools_report_witness :
  200 <= status Samples.no_content <= 299
  /\ snd (handler (createLoadModelTool
                     (createClient (host := Samples.constant_server Samples.no_content)
                                   Samples.sample_config))
                  (JObject [("model", JString "model.gguf")]))
     = Normal (Process.error_result "Error: Unexpected end of JSON input").
Proof.
  split; [cbn; lia |].
  exact (proj1 (@model_tools_report
                  (Samples.constant_server Samples.no_content)
                  MoreSamples.tools_host Samples.sample_config
                  (JObject [("model", JString "model.gguf")])
                  Samples.no_content (fun _ _ => eq_refl) ltac:(cbn; lia))
               _ eq_refl).
Defined.

End ToolsFacts.
